(** * DiCloud: the file descriptor (FileBase) and the application object
  (DiscordFileStorageApp), embedded from the TypeScript sources.

  - [src/file/FileBase.ts]            -> [Module VFS], [Module VFSExt]
  - [src/DiscordFileStorageApp.ts]    -> [Module App], [Module AppExt]

  JavaScript objects are mutable and shared by reference, so files and
  folders live in a store ([Heap]) and are named by references; a method
  is a computation over that store that either returns or throws. *)

From Stdlib Require Import ZArith List Ascii.
From stdpp Require Import gmap strings list fin_maps pretty.

(* ===================================================================== *)
(** ** Exceptions and stateful computations                               *)
(* ===================================================================== *)

Module JS.

(** What a [throw] carries.  [Error msg] is [new Error(msg)];
    [TypeError] is the engine's error for a member access on
    [null]/[undefined]; [RangeError] is its error for an exhausted
    call stack. *)
Inductive exn : Type :=
| Error (msg : string)
| TypeError
| RangeError.

Global Instance exn_eq_dec : EqDecision exn.
Proof. solve_decision. Defined.

Section Monad.
Context {S : Type}.

(** The outcome of a method call on a store of type [S]: the store
    is kept in both cases, since writes made before a [throw] stay. *)
Inductive Res (A : Type) : Type :=
| Ok (a : A) (s : S)
| Throw (e : exn) (s : S).
Global Arguments Ok {A} a s.
Global Arguments Throw {A} e s.

Definition M (A : Type) : Type := S -> Res A.

Definition ret {A} (a : A) : M A := fun s => Ok a s.
Definition throw {A} (e : exn) : M A := fun s => Throw e s.
Definition bind {A B} (m : M A) (k : A -> M B) : M B :=
  fun s => match m s with
           | Ok a s' => k a s'
           | Throw e s' => Throw e s'
           end.

(** The store a call leaves behind. *)
Definition store_of {A} (r : Res A) : S :=
  match r with Ok _ s => s | Throw _ s => s end.

(** What the caller observes: the returned value or the exception. *)
Definition obs {A} (r : Res A) : exn + A :=
  match r with Ok a _ => inr a | Throw e _ => inl e end.
End Monad.

Global Arguments Res : clear implicits.
Global Arguments M : clear implicits.

Declare Scope js_scope.
Delimit Scope js_scope with js.
Notation "x <- m ;; k" := (bind m (fun x => k))
  (at level 100, m at next level, right associativity) : js_scope.
Notation "m ;;; k" := (bind m (fun _ => k))
  (at level 100, right associativity) : js_scope.

End JS.

(* ===================================================================== *)
(** ** FileBase.ts                                                         *)
(* ===================================================================== *)

Module VFS.
Import JS.
Local Open Scope js_scope.

Abbreviation FileRef := positive.
Abbreviation FolderRef := positive.

(** A [Date] is represented by its time value ([getTime()], milliseconds
    since the epoch) and a byte count by an integer; both print in
    decimal when concatenated to a string.  No method of the class
    changes a [Date] object in place, so the value stands for the
    object. *)
Abbreviation Date := Z.

(** [class FileBase] (FileBase.ts:9-15).  [folder = None] is the [null]
    written by [setNullFolder]. *)
Record FileBase : Type := mkFileBase {
  filename : string;
  totalSize : Z;
  creationDate : Date;
  modifyDate : Date;
  folder : option FolderRef;
  markedDeleted : bool
}.

Inductive Child : Type :=
| FileChild (r : FileRef)
| FolderChild (r : FolderRef).

Global Instance Child_eq_dec : EqDecision Child.
Proof. solve_decision. Defined.

(** Modelled from the spec: [class Folder] (./filesystem/Folder) is not
    among the sources.  Spec section 3: a folder has a name, a parent
    reference (the root has none) and a mapping from child name to child
    node (file or folder). *)
Record Folder : Type := mkFolder {
  name : string;
  parent : option FolderRef;
  children : gmap string Child
}.

Record Heap : Type := mkHeap {
  fileObjs : gmap FileRef FileBase;
  folderObjs : gmap FolderRef Folder
}.

Definition with_filename (f : FileBase) (s : string) : FileBase :=
  mkFileBase s (totalSize f) (creationDate f) (modifyDate f) (folder f) (markedDeleted f).
Definition with_totalSize (f : FileBase) (n : Z) : FileBase :=
  mkFileBase (filename f) n (creationDate f) (modifyDate f) (folder f) (markedDeleted f).
Definition with_creationDate (f : FileBase) (d : Date) : FileBase :=
  mkFileBase (filename f) (totalSize f) d (modifyDate f) (folder f) (markedDeleted f).
Definition with_modifyDate (f : FileBase) (d : Date) : FileBase :=
  mkFileBase (filename f) (totalSize f) (creationDate f) d (folder f) (markedDeleted f).
Definition with_folder (f : FileBase) (o : option FolderRef) : FileBase :=
  mkFileBase (filename f) (totalSize f) (creationDate f) (modifyDate f) o (markedDeleted f).
Definition with_markedDeleted (f : FileBase) (b : bool) : FileBase :=
  mkFileBase (filename f) (totalSize f) (creationDate f) (modifyDate f) (folder f) b.

Definition with_children (fo : Folder) (c : gmap string Child) : Folder :=
  mkFolder (name fo) (parent fo) c.

(** Reading and writing the fields of [this]. *)
Definition load (this : FileRef) : M Heap FileBase :=
  fun h => match fileObjs h !! this with
           | Some f => Ok f h
           | None => Throw TypeError h
           end.

Definition store (this : FileRef) (f : FileBase) : M Heap unit :=
  fun h => Ok tt (mkHeap (<[this := f]> (fileObjs h)) (folderObjs h)).

Definition modify (this : FileRef) (g : FileBase -> FileBase) : M Heap unit :=
  f <- load this ;; store this (g f).

(** *** Folder operations used by FileBase *)

(** Modelled from the spec: [Folder.removeFile(file)] is missing.  It
    takes [file] out of the folder's child mapping (rm's doc comment,
    FileBase.ts:111-114: removes this file from the folder). *)
Definition Folder_removeFile (fr : FolderRef) (file : FileRef) : M Heap unit :=
  fun h => match folderObjs h !! fr with
           | Some fo =>
               let c := filter (fun kv => kv.2 <> FileChild file) (children fo) in
               Ok tt (mkHeap (fileObjs h) (<[fr := with_children fo c]> (folderObjs h)))
           | None => Throw TypeError h
           end.

(** Modelled from the spec: [Folder.addFile(file)] is missing.  It
    enters [file] in the folder's child mapping under the file's
    name. *)
Definition Folder_addFile (fr : FolderRef) (file : FileRef) : M Heap unit :=
  fun h => match folderObjs h !! fr, fileObjs h !! file with
           | Some fo, Some f =>
               let c := <[filename f := FileChild file]> (children fo) in
               Ok tt (mkHeap (fileObjs h) (<[fr := with_children fo c]> (folderObjs h)))
           | _, _ => Throw TypeError h
           end.

(** Modelled from the spec: [Folder.getAbsolutePath()] is missing.
    Spec section 3: the root folder's absolute path is the "/" prefix; a
    folder's absolute path is its parent's absolute path concatenated
    with its own name and a trailing separator.  The recursion follows
    parent references; [fuel] bounds its depth (the call stack). *)
Fixpoint Folder_path (fuel : nat) (fs : gmap FolderRef Folder) (fr : FolderRef)
  : exn + string :=
  match fuel with
  | O => inl RangeError
  | S n =>
      match fs !! fr with
      | None => inl TypeError
      | Some fo =>
          match parent fo with
          | None => inr "/"%string
          | Some p =>
              match Folder_path n fs p with
              | inr pp => inr (pp +:+ name fo +:+ "/")%string
              | inl e => inl e
              end
          end
      end
  end.

(** A parent chain without repetition is no longer than the number of
    folders, so that many frames are enough for every finite chain. *)
Definition Folder_getAbsolutePath (fr : FolderRef) : M Heap string :=
  fun h => match Folder_path (size (folderObjs h)) (folderObjs h) fr with
           | inr p => Ok p h
           | inl e => Throw e h
           end.

(** [anchored fs fr n]: following parent references from folder [fr]
    reaches a root (a folder without parent) after [n] steps. *)
Inductive anchored (fs : gmap FolderRef Folder) : FolderRef -> nat -> Prop :=
| anchored_root fr fo :
    fs !! fr = Some fo -> parent fo = None -> anchored fs fr 0
| anchored_step fr fo p n :
    fs !! fr = Some fo -> parent fo = Some p -> anchored fs p n ->
    anchored fs fr (S n).

(** *** FileBase methods *)

(** [constructor] (FileBase.ts:17-24); the new object gets a fresh
    reference. *)
Definition FileBase_new (filename : string) (totalSize : Z) (folder : FolderRef)
           (uploadedDate lastChangedDate : Date) : M Heap FileRef :=
  fun h =>
    let this := fresh (dom (fileObjs h)) in
    (store this (mkFileBase filename totalSize uploadedDate lastChangedDate
                            (Some folder) false) ;;;
     Folder_addFile folder this ;;;
     ret this) h.

(** FileBase.ts:26-32 *)
Definition isMarkedDeleted (this : FileRef) : M Heap bool :=
  f <- load this ;; ret (markedDeleted f).

Definition markDeleted (this : FileRef) : M Heap unit :=
  modify this (fun f => with_markedDeleted f true).

(** FileBase.ts:35-41 *)
Definition getFolder (this : FileRef) : M Heap (option FolderRef) :=
  f <- load this ;; ret (folder f).

Definition setNullFolder (this : FileRef) : M Heap unit :=
  modify this (fun f => with_folder f None).

(** FileBase.ts:43-51 *)
Definition setFolder (this : FileRef) (newFolder : FolderRef) (updateParents : bool)
  : M Heap unit :=
  f <- load this ;;
  match updateParents, folder f with
  | true, Some old =>
      Folder_removeFile old this ;;;
      modify this (fun f => with_folder f (Some newFolder)) ;;;
      Folder_addFile newFolder this
  | _, _ =>
      modify this (fun f => with_folder f (Some newFolder))
  end.

(** FileBase.ts:60-71 *)
Definition getEntryName (this : FileRef) : M Heap string :=
  f <- load this ;; ret (filename f).

Definition getFileName (this : FileRef) : M Heap string :=
  f <- load this ;; ret (filename f).

Definition setFileName (this : FileRef) (newName : string) : M Heap unit :=
  modify this (fun f => with_filename f newName).

(** FileBase.ts:53-58 *)
Definition getAbsolutePath (this : FileRef) : M Heap string :=
  f <- load this ;;
  match folder f with
  | None => throw (Error "Folder is null")
  | Some fr =>
      p <- Folder_getAbsolutePath fr ;;
      n <- getFileName this ;;
      ret (p +:+ n)%string
  end.

(** FileBase.ts:74-100 *)
Definition getSize (this : FileRef) : M Heap Z :=
  f <- load this ;; ret (totalSize f).

Definition getCreationDate (this : FileRef) : M Heap Date :=
  f <- load this ;; ret (creationDate f).

Definition setCreationDate (this : FileRef) (date : Date) : M Heap unit :=
  modify this (fun f => with_creationDate f date).

Definition getModifyDate (this : FileRef) : M Heap Date :=
  f <- load this ;; ret (modifyDate f).

Definition setModifyDate (this : FileRef) (date : Date) : M Heap unit :=
  modify this (fun f => with_modifyDate f date).

(** [new Date()] reads the clock; [now] is that reading. *)
Definition updateModifyDate (now : Date) (this : FileRef) : M Heap unit :=
  modify this (fun f => with_modifyDate f now).

Definition setTotalSize (this : FileRef) (totalSize : Z) : M Heap unit :=
  modify this (fun f => with_totalSize f totalSize).

(** FileBase.ts:102-104: [getTime() + "-" + getSize()]. *)
Definition getETag (this : FileRef) : M Heap string :=
  f <- load this ;;
  s <- getSize this ;;
  ret (pretty (modifyDate f) +:+ "-" +:+ pretty s)%string.

(** FileBase.ts:115-119 *)
Definition rm (this : FileRef) : M Heap FolderRef :=
  f <- load this ;;
  match folder f with
  | None => throw TypeError
  | Some fr => Folder_removeFile fr this ;;; ret fr
  end.

End VFS.

(* ===================================================================== *)
(** ** DiscordFileStorageApp.ts                                            *)
(* ===================================================================== *)

Module App.
Import JS.
Local Open Scope js_scope.

(** *** Construction and configuration (DiscordFileStorageApp.ts:9-64) *)

(** [interface DiscordFileStorageAppOptions]; the optional
    [encryptPassword?] is [None] when the caller leaves it out. *)
Record DiscordFileStorageAppOptions : Type := mkOptions {
  opt_metaChannelName : string;
  opt_filesChannelName : string;
  opt_shouldEncrypt : bool;
  opt_encryptPassword : option string
}.

(** The fields the constructor assigns.  [filesystem] (the tree built by
    [loadFiles]) is kept in the store of [loadFiles] below;
    [discordFileManager] and [logger] hold collaborators that are not
    among the sources. *)
Record DiscordFileStorageApp : Type := mkApp {
  guildId : string;
  metaChannelName : string;
  filesChannelId : string;
  channelsToCreate : list string;
  shouldEncrypt : bool;
  encryptPassword : string
}.

(** [public static instance]: unset until the first construction. *)
Abbreviation Statics := (option DiscordFileStorageApp).

(** [a ?? b] on an optional string. *)
Definition nullish (a : option string) (b : string) : string :=
  match a with Some s => s | None => b end.

(** [constructor(options, guildId)] (lines 35-56).  [super(options)] and
    [new DiscordFileManager(this)] build collaborators that are not among
    the sources and do not touch the fields below. *)
Definition constructor (options : DiscordFileStorageAppOptions) (guildId : string)
  : M Statics DiscordFileStorageApp :=
  fun instance =>
    match instance with
    | Some _ => Throw (Error "DiscordFileStorageApp already exists") instance
    | None =>
        let this :=
          mkApp guildId
                (opt_metaChannelName options)
                (opt_filesChannelName options)
                [opt_metaChannelName options; opt_filesChannelName options]
                (opt_shouldEncrypt options)
                (nullish (opt_encryptPassword options) "") in
        Ok this (Some this)
    end.

(** Lines 58-64. *)
Definition shouldEncryptFiles (this : DiscordFileStorageApp) : bool :=
  shouldEncrypt this.

Definition getEncryptPassword (this : DiscordFileStorageApp) : string :=
  encryptPassword this.

(** A process that calls the constructor again and again: the outcome of
    each call, in order, and the final static slot. *)
Fixpoint construct_all (calls : list (DiscordFileStorageAppOptions * string))
         (instance : Statics) : list (exn + DiscordFileStorageApp) * Statics :=
  match calls with
  | [] => ([], instance)
  | (o, g) :: rest =>
      let r := constructor o g instance in
      let '(rs, final) := construct_all rest (store_of r) in
      (obs r :: rs, final)
  end.

Definition constructed (r : exn + DiscordFileStorageApp) : bool :=
  match r with inr _ => true | inl _ => false end.

(** *** Startup: [prepare] and [printAndExit] (lines 85-111, 204-207) *)

Inductive Colour : Type := red | green | yellow.

Inductive ChannelType : Type := GuildText | OtherChannelType.

Global Instance ChannelType_eq_dec : EqDecision ChannelType.
Proof. solve_decision. Defined.

Record GuildBasedChannel : Type := mkChannel {
  channel_name : string;
  channel_type : ChannelType
}.

(** A guild as [prepare] sees it: its name and the channel cache that
    [guild.channels.fetch()] fills. *)
Record Guild : Type := mkGuild {
  guild_name : string;
  guild_channels : list GuildBasedChannel
}.

(** How an awaited promise settles. *)
Inductive Settled (A : Type) : Type :=
| Resolved (a : A)
| RejectedWith (e : exn).
Global Arguments Resolved {A} a.
Global Arguments RejectedWith {A} e.

(** What the process has done to the outside, in order: lines printed,
    the guild's channel cache refreshed ([guild.channels.fetch()]
    resolved), a channel created ([guild.channels.create(...)]
    resolved). *)
Inductive Event : Type :=
| ConsoleLog (c : option Colour) (s : string)
| LoggerInfo (s : string)
| ChannelsFetch
| ChannelsCreate (name : string) (type : ChannelType).

(** The part of the discord.js [Client] that [prepare] uses:
    [this.guilds.cache], and what the three awaited calls settle to:
    [guild.fetch()] (a promise resolved with [None] stands for a falsy
    value, the case tested by [if (!guild)]), [guild.channels.fetch()],
    and [guild.channels.create({name, type: GuildText})], which may
    depend on what the process has done so far. *)
Record Client : Type := mkClient {
  guilds_cache : gmap string Guild;
  guild_fetch : Guild -> Settled (option Guild);
  guild_channels_fetch : Guild -> Settled unit;
  guild_channels_create : Guild -> list Event -> string -> Settled unit
}.

(** How an async function of the process ends: it returns, the process
    exits ([process.exit] does not return), or its promise rejects. *)
Inductive Outcome (A : Type) : Type :=
| Returned (a : A)
| Exited (code : Z)
| Rejected (e : exn).
Global Arguments Returned {A} a.
Global Arguments Exited {A} code.
Global Arguments Rejected {A} e.

Definition Proc (A : Type) : Type := list Event -> Outcome A * list Event.

Definition pret {A} (a : A) : Proc A := fun t => (Returned a, t).
Definition pbind {A B} (m : Proc A) (k : A -> Proc B) : Proc B :=
  fun t => match m t with
           | (Returned a, t') => k a t'
           | (Exited c, t') => (Exited c, t')
           | (Rejected e, t') => (Rejected e, t')
           end.
Definition emit (e : Event) : Proc unit := fun t => (Returned tt, t ++ [e]).
Definition process_exit {A} (code : Z) : Proc A := fun t => (Exited code, t).
Definition await {A} (p : Settled A) : Proc A :=
  fun t => match p with
           | Resolved a => (Returned a, t)
           | RejectedWith e => (Rejected e, t)
           end.
(** An awaited call whose outcome may depend on the events so far. *)
Definition await_at {A} (p : list Event -> Settled A) : Proc A :=
  fun t => await (p t) t.

Declare Scope proc_scope.
Delimit Scope proc_scope with proc.
Notation "x <- m ;; k" := (pbind m (fun x => k))
  (at level 100, m at next level, right associativity) : proc_scope.
Notation "m ;;; k" := (pbind m (fun _ => k))
  (at level 100, right associativity) : proc_scope.

(** [printAndExit(message, exitCode = 1)]. *)
Definition printAndExit {A} (message : string) (exitCode : Z) : Proc A :=
  (emit (ConsoleLog (Some red) message) ;;; process_exit exitCode)%proc.

(** The body of the [for ... of this.channelsToCreate] loop. *)
Definition ensure_channel (client : Client) (guild : Guild)
           (guildChannels : list GuildBasedChannel)
           (channelToCreate : string) : Proc unit :=
  (if existsb (fun channel => bool_decide (channel_name channel = channelToCreate))
              guildChannels
   then emit (ConsoleLog (Some green) ("channel already exists: " +:+ channelToCreate))
   else emit (ConsoleLog None ("creating channel: " +:+ channelToCreate)) ;;;
        await_at (fun t => guild_channels_create client guild t channelToCreate) ;;;
        emit (ChannelsCreate channelToCreate GuildText))%proc.

Fixpoint for_each {A} (body : A -> Proc unit) (l : list A) : Proc unit :=
  match l with
  | [] => pret tt
  | x :: rest => (body x ;;; for_each body rest)%proc
  end.

(** [async prepare()]. *)
Definition prepare (this : DiscordFileStorageApp) (client : Client) : Proc unit :=
  (let guilds := guilds_cache client in
   (if bool_decide (is_Some (guilds !! guildId this)) then pret tt
    else printAndExit "Guild not found" 1) ;;;
   guild <- await (match guilds !! guildId this with
                   | Some g => guild_fetch client g
                   | None => Resolved None
                   end) ;;
   match guild with
   | None => printAndExit ("Failed to fetch guild: " +:+ guildId this) 1
   | Some guild =>
       emit (LoggerInfo ("Guild found: " +:+ guild_name guild)) ;;;
       emit (ConsoleLog (Some yellow) "Fetching channels...") ;;;
       await (guild_channels_fetch client guild) ;;;
       emit ChannelsFetch ;;;
       let guildChannels :=
         List.filter (fun channel => bool_decide (channel_type channel = GuildText))
                     (guild_channels guild) in
       for_each (ensure_channel client guild guildChannels) (channelsToCreate this)
   end)%proc.

(** *** Reading the metadata channel (lines 113-136) *)

Record Attachment : Type := mkAttachment {
  url : string;
  attachment_name : string
}.

(** A discord.js [Message]: its id (a string) and its attachments in
    order ([attachments.first()] is the head). *)
Record Message : Type := mkMessage {
  id : string;
  attachments : list Attachment
}.

(** A channel's history is the list of its messages, newest first.
    [older_than b hist] is what was sent before the message with id [b]. *)
Fixpoint older_than (b : string) (hist : list Message) : list Message :=
  match hist with
  | [] => []
  | m :: rest => if decide (id m = b) then rest else older_than b rest
  end.

(** What [channel.messages.fetch({limit, before})] resolves to on a
    channel with history [hist]: at most [limit] messages, the most
    recent ones sent before [before] (the most recent ones of the channel
    without [before]), newest first. *)
Definition messages_fetch (hist : list Message) (limit : nat) (before : option string)
  : list Message :=
  take limit (match before with
              | None => hist
              | Some b => older_than b hist
              end).

(** A text channel as [getAllMessages] uses it: what the awaited
    [channel.messages.fetch({limit, before})] settles to. *)
Abbreviation TextChannel := (nat -> option string -> Settled (list Message)).

(** The channel with history [hist] on a transport that resolves every
    fetch. *)
Definition serving (hist : list Message) : TextChannel :=
  fun limit before => Resolved (messages_fetch hist limit before).

(** [if (lastId) options.before = lastId]: an empty string is falsy. *)
Definition fetch_options_before (lastId : option string) : option string :=
  match lastId with
  | Some s => if decide (s = ""%string) then None else Some s
  | None => None
  end.

(** The line printed after each fetch (line 127). *)
Definition block_line (length : nat) : string :=
  ("[getAllMessages] got block of " +:+ pretty length +:+ " messages")%string.


(** The [while (true)] loop, with the console [out] it prints on.  The
    result is [None] when the loop is still running after [fuel] fetches;
    otherwise it is how the async function settles (a rejected fetch
    rejects it) and the console it leaves.  [messages.pop()] after the
    [length < 100] test always finds a last element. *)
Fixpoint getAllMessages_loop (fuel : nat) (channel : TextChannel)
         (allMessages : list Message) (lastId : option string) (out : list string)
  : option (Settled (list Message) * list string) :=
  match fuel with
  | O => None
  | S fuel' =>
      match channel 100%nat (fetch_options_before lastId) with
      | RejectedWith e => Some (RejectedWith e, out)
      | Resolved messages =>
          let allMessages := allMessages ++ messages in
          let out := out ++ [block_line (length messages)] in
          if (length messages <? 100)%nat then Some (Resolved allMessages, out)
          else getAllMessages_loop fuel' channel allMessages (id <$> last messages) out
      end
  end.

(** [async getAllMessages(channelId)].  [channel] is what the awaited
    [this.channels.fetch(channelId)] settles to; resolved with [None]
    (null), the access to [channel.messages] throws. *)
Definition getAllMessages (fuel : nat) (channel : Settled (option TextChannel))
           (out : list string) : option (Settled (list Message) * list string) :=
  match channel with
  | RejectedWith e => Some (RejectedWith e, out)
  | Resolved None => Some (RejectedWith TypeError, out)
  | Resolved (Some channel) => getAllMessages_loop fuel channel [] None out
  end.


(** *** Rebuilding the tree (lines 145-183) *)

Section LoadFiles.

(** The JSON value of a downloaded attachment. *)
Context {object : Type}.

(** [axios.get(url)] settles to the response body or rejects. *)
Variable axios_get : string -> exn + object.

(** [RemoteFile] (./file/RemoteFile) is not among the sources: its
    validator, its constructor from a record (which enters the file in
    the tree) and the setter of the metadata message id are taken as
    given.  A [RemoteFile] is a [FileBase], so [getFileName] and
    [getAbsolutePath] are the ones of [VFS]. *)
Variable isValidRemoteFile : object -> bool.
Variable fromObject : object -> M VFS.Heap positive.
Variable setMessageMetaIdInMetaChannel : positive -> string -> M VFS.Heap unit.

(** A line on the console.  [Success loaded total] is the last report,
    which prints the two numbers and their floating-point percentage. *)
Inductive Line : Type :=
| Text (c : option Colour) (s : string)
| Obj (o : object)
| Blank
| Success (loaded total : nat).

(** The tree [this.filesystem], the two counters and the console. *)
Record LoadState : Type := mkLoadState {
  filesystem : VFS.Heap;
  totalLoadedFiles : nat;
  failedFiles : nat;
  console : list Line
}.

Definition console_log (l : Line) : M LoadState unit :=
  fun st => Ok tt (mkLoadState (filesystem st) (totalLoadedFiles st) (failedFiles st)
                               (console st ++ [l])).

Definition incr_failedFiles : M LoadState unit :=
  fun st => Ok tt (mkLoadState (filesystem st) (totalLoadedFiles st) (S (failedFiles st))
                               (console st)).

Definition incr_totalLoadedFiles : M LoadState unit :=
  fun st => Ok tt (mkLoadState (filesystem st) (S (totalLoadedFiles st)) (failedFiles st)
                               (console st)).

(** A method of the tree, run on [this.filesystem]. *)
Definition on_filesystem {A} (m : M VFS.Heap A) : M LoadState A :=
  fun st =>
    let put h := mkLoadState h (totalLoadedFiles st) (failedFiles st) (console st) in
    match m (filesystem st) with
    | Ok a h => Ok a (put h)
    | Throw e h => Throw e (put h)
    end.

Definition await_axios (u : string) : M LoadState object :=
  match axios_get u with
  | inr o => ret o
  | inl e => throw e
  end.

(** The body of the [for] loop for [messages[i]], [n = messages.length]. *)
Definition load_message (i n : nat) (msg : Message) : M LoadState unit :=
  match attachments msg with
  | first :: _ =>
      file <- await_axios (url first) ;;
      console_log (Text None ("Loading file " +:+ pretty i +:+ "/" +:+ pretty n +:+ " "
                              +:+ attachment_name first)) ;;;
      console_log (Obj file) ;;;
      (if isValidRemoteFile file then
         remoteFile <- on_filesystem (fromObject file) ;;
         on_filesystem (setMessageMetaIdInMetaChannel remoteFile (id msg)) ;;;
         fileName <- on_filesystem (VFS.getFileName remoteFile) ;;
         path <- on_filesystem (VFS.getAbsolutePath remoteFile) ;;
         console_log (Text None ("Loaded file " +:+ fileName +:+ " at " +:+ path))
       else
         console_log (Text None "Failed to extract valid message data") ;;;
         console_log (Obj file) ;;;
         incr_failedFiles) ;;;
      incr_totalLoadedFiles
  | [] => console_log (Text None "Message has no attachments")
  end.

Fixpoint loadFiles_loop (i n : nat) (messages : list Message) : M LoadState unit :=
  match messages with
  | [] => ret tt
  | msg :: rest => load_message i n msg ;;; loadFiles_loop (S i) n rest
  end.

(** The part of [loadFiles] after the messages are in. *)
Definition loadFiles_parse (messages : list Message) : M LoadState unit :=
  console_log (Text None ("Got " +:+ pretty (length messages)
                          +:+ " meta information messages, parsing...")) ;;;
  console_log Blank ;;;
  loadFiles_loop 0 (length messages) messages ;;;
  console_log Blank ;;;
  t <- (fun st => Ok (totalLoadedFiles st) st) ;;
  f <- (fun st => Ok (failedFiles st) st) ;;
  console_log (Text None ("Readen " +:+ pretty t +:+ " files")) ;;;
  console_log (Success (t - f) t) ;;;
  console_log Blank.

(** [async loadFiles()].  [metaChannel] is what the awaited
    [getMetadataChannel()] settles to, as the id of the channel found,
    [None] when no channel has the configured name (then [.id] is read
    from [undefined]); [channel_by_id] is [this.channels.fetch(id)]; the
    counters start at 0.  A rejected promise leaves [loadFiles] as an
    exception.  The result is [None] when [getAllMessages] is still
    running after [fuel] fetches. *)
Definition loadFiles (fuel : nat) (metaChannel : Settled (option string))
           (channel_by_id : string -> Settled (option TextChannel))
           (tree : VFS.Heap) (out : list Line) : option (Res LoadState unit) :=
  let st := mkLoadState tree 0 0
              (out ++ [Text (Some yellow)
                 "Fetching files... This may take a while if there are a lot of files"]) in
  match metaChannel with
  | RejectedWith e => Some (Throw e st)
  | Resolved None => Some (Throw TypeError st)
  | Resolved (Some metaDataChannelId) =>
      match getAllMessages fuel (channel_by_id metaDataChannelId) [] with
      | Some (settled, lines) =>
          let st := mkLoadState tree 0 0 (console st ++ (Text None <$> lines)) in
          match settled with
          | Resolved messages => Some (loadFiles_parse messages st)
          | RejectedWith e => Some (Throw e st)
          end
      | None => None
      end
  end.


(** A record that downloads but does not pass [isValidRemoteFile]. *)
Definition malformed (msg : Message) : bool :=
  match attachments msg with
  | first :: _ =>
      match axios_get (url first) with
      | inr file => negb (isValidRemoteFile file)
      | inl _ => false
      end
  | [] => false
  end.

End LoadFiles.

End App.

(* ===================================================================== *)
(** ** Sample data                                                         *)
(* ===================================================================== *)

Module Examples.
Import JS VFS App.

(** A small tree: the root, a folder "docs" in it, a file "a.txt" in
    "docs", and a detached file "b.txt" with the same size and
    modification time. *)
Definition root : Folder :=
  mkFolder "" None {[ "docs"%string := FolderChild 2 ]}.
Definition docs : Folder :=
  mkFolder "docs" (Some 1%positive) {[ "a.txt"%string := FileChild 1 ]}.
Definition file_a : FileBase :=
  mkFileBase "a.txt" 11 1000 2000 (Some 2%positive) false.
Definition file_b : FileBase :=
  mkFileBase "b.txt" 11 500 2000 None false.
Definition tree : Heap :=
  mkHeap {[ 1%positive := file_a; 2%positive := file_b ]}
         {[ 1%positive := root; 2%positive := docs ]}.

(** Options without a password, and the app built from them. *)
Definition options_plain : DiscordFileStorageAppOptions :=
  mkOptions "meta" "files" true None.
Definition app_plain : DiscordFileStorageApp :=
  mkApp "42" "meta" "files" ["meta"; "files"]%string true "".

(** A client that has the guild cached but cannot fetch it. *)
Definition home : Guild :=
  mkGuild "home" [mkChannel "meta" GuildText; mkChannel "general" GuildText].
Definition client_rejecting : Client :=
  mkClient {[ "42"%string := home ]} (fun _ => RejectedWith (Error "Missing Access"))
           (fun _ => Resolved tt) (fun _ _ _ => Resolved tt).
Definition client_online : Client :=
  mkClient {[ "42"%string := home ]} (fun g => Resolved (Some g))
           (fun _ => Resolved tt) (fun _ _ _ => Resolved tt).

(** A channel of [n] messages without attachments, ids [n] down to 1,
    newest first. *)
Definition numbered (n : nat) : list Message :=
  (fun i => mkMessage (pretty i) []) <$> reverse (seq 1 n).

(** Metadata records: a name and whether the record is complete.  Files
    are created in "docs". *)
Definition download (u : string) : exn + (string * bool) :=
  if decide (u = "cdn/c.json"%string) then inr ("c.txt"%string, true)
  else if decide (u = "cdn/d.json"%string) then inr ("d.txt"%string, true)
  else if decide (u = "cdn/broken.json"%string) then inr (""%string, false)
  else inl (Error "ECONNRESET").
Definition complete (o : string * bool) : bool := o.2.
Definition build (o : string * bool) : M Heap positive :=
  FileBase_new o.1 1 2%positive 0 0.
Definition set_meta_id (r : positive) (i : string) : M Heap unit := ret tt.

Definition broken : Message :=
  mkMessage "2" [mkAttachment "cdn/broken.json" "broken.json"].
Definition history : list Message :=
  [mkMessage "4" [mkAttachment "cdn/d.json" "d.json"];
   mkMessage "3" [];
   broken;
   mkMessage "1" [mkAttachment "cdn/c.json" "c.json"]].
Definition start : LoadState (object := string * bool) :=
  mkLoadState tree 0 0 [].

End Examples.

(* ===================================================================== *)
(** ** More of FileBase.ts                                                 *)
(* ===================================================================== *)

Module VFSExt.
Import JS VFS.
Local Open Scope js_scope.

Section Mime.

(** [mime.lookup(name)] of the mime-types package: the type registered for
    the extension of [name], [None] for its [false]. *)
Variable mime_lookup : string -> option string.

(** [a || b] on a string-or-false: [false] and the empty string are
    falsy. *)
Definition or_else (a : option string) (b : string) : string :=
  match a with
  | Some s => if decide (s = ""%string) then b else s
  | None => b
  end.

(** FileBase.ts:106-108 *)
Definition getMimeType (this : FileRef) : M Heap string :=
  f <- load this ;;
  ret (or_else (mime_lookup (filename f)) "application/octet-stream").

End Mime.

(** The methods of a file that write, as a caller invokes them. *)
Inductive Call : Type :=
| MarkDeleted
| SetNullFolder
| SetFolder (folder : FolderRef) (updateParents : bool)
| SetFileName (newName : string)
| SetCreationDate (date : Date)
| SetModifyDate (date : Date)
| UpdateModifyDate (now : Date)
| SetTotalSize (totalSize : Z)
| Rm.

Definition call (this : FileRef) (c : Call) : M Heap unit :=
  match c with
  | MarkDeleted => markDeleted this
  | SetNullFolder => setNullFolder this
  | SetFolder folder updateParents => setFolder this folder updateParents
  | SetFileName newName => setFileName this newName
  | SetCreationDate date => setCreationDate this date
  | SetModifyDate date => setModifyDate this date
  | UpdateModifyDate now => updateModifyDate now this
  | SetTotalSize totalSize => setTotalSize this totalSize
  | Rm => rm this ;;; ret tt
  end.

(** One thing a program does to the tree: a method call on a file, or
    the construction of a new file. *)
Inductive Step : Type :=
| OnFile (this : FileRef) (c : Call)
| New (filename : string) (totalSize : Z) (folder : FolderRef)
      (uploadedDate lastChangedDate : Date).

Definition step (s : Step) : M Heap unit :=
  match s with
  | OnFile this c => call this c
  | New filename totalSize folder uploadedDate lastChangedDate =>
      FileBase_new filename totalSize folder uploadedDate lastChangedDate ;;; ret tt
  end.

(** A program that goes on after an exception it has caught: the store
    after the steps, each run on the store the one before left. *)
Fixpoint run (steps : list Step) (h : Heap) : Heap :=
  match steps with
  | [] => h
  | s :: rest => run rest (store_of (step s h))
  end.

(** The calls that do not write [modifyDate] or [totalSize]. *)
Definition keeps_etag (c : Call) : bool :=
  match c with
  | SetModifyDate _ | UpdateModifyDate _ | SetTotalSize _ => false
  | _ => true
  end.

(** Two stores with the same folders under the same names and parents
    (the listings may differ). *)
Definition same_tree (h h' : Heap) : Prop :=
  size (folderObjs h') = size (folderObjs h)
  /\ forall r, (fun fo => (name fo, parent fo)) <$> folderObjs h' !! r
               = (fun fo => (name fo, parent fo)) <$> folderObjs h !! r.

(** A string without the character "-". *)
Fixpoint dashfree (s : string) : Prop :=
  match s with
  | EmptyString => True
  | String c rest => c <> "-"%char /\ dashfree rest
  end.

End VFSExt.

(* ===================================================================== *)
(** ** More of DiscordFileStorageApp.ts                                    *)
(* ===================================================================== *)

Module AppExt.
Import JS App.

(** [getGuild()] (lines 67-69): [this.guilds.cache.get(id)!.fetch()].  With
    no cached guild the member access on [undefined] throws inside the
    async function. *)
Definition getGuild (this : DiscordFileStorageApp) (client : Client)
  : Settled (option Guild) :=
  match guilds_cache client !! guildId this with
  | Some cached => guild_fetch client cached
  | None => RejectedWith TypeError
  end.

(** [channels.cache.find(channel => channel.name == name)]: the first
    channel of the cache with that name, of any type. *)
Definition find_channel (name : string) (guild : Guild) : option GuildBasedChannel :=
  List.find (fun channel => bool_decide (channel_name channel = name))
            (guild_channels guild).

Definition channel_of (name : string) (guild : Settled (option Guild))
  : Settled (option GuildBasedChannel) :=
  match guild with
  | Resolved (Some g) => Resolved (find_channel name g)
  | Resolved None => RejectedWith TypeError
  | RejectedWith e => RejectedWith e
  end.

(** Lines 71-77. *)
Definition getMetadataChannel (this : DiscordFileStorageApp) (client : Client)
  : Settled (option GuildBasedChannel) :=
  channel_of (metaChannelName this) (getGuild this client).

Definition getFileChannel (this : DiscordFileStorageApp) (client : Client)
  : Settled (option GuildBasedChannel) :=
  channel_of (filesChannelId this) (getGuild this client).

(** [print(message)] (lines 210-212). *)
Definition print (message : string) : Proc unit :=
  emit (ConsoleLog (Some green) message).

(** The channels a run has created, in order. *)
Definition created (t : list Event) : list GuildBasedChannel :=
  omap (fun e => match e with
                 | ChannelsCreate name type => Some (mkChannel name type)
                 | _ => None
                 end) t.

(** The guild once the created channels are in its cache. *)
Definition guild_after (guild : Guild) (t : list Event) : Guild :=
  mkGuild (guild_name guild) (guild_channels guild ++ created t).

(** The text channels of a guild, and whether one has the name [c]. *)
Definition text_channels (guild : Guild) : list GuildBasedChannel :=
  List.filter (fun channel => bool_decide (channel_type channel = GuildText))
              (guild_channels guild).

Definition has_text_channel (guild : Guild) (c : string) : bool :=
  existsb (fun channel => bool_decide (channel_name channel = c)) (text_channels guild).

(** The message has an attachment ([msg.attachments.size > 0]). *)
Definition has_attachment (msg : Message) : bool :=
  match attachments msg with
  | [] => false
  | _ :: _ => true
  end.

(** The message with its first attachment only. *)
Definition first_only (msg : Message) : Message :=
  mkMessage (id msg) (take 1 (attachments msg)).

Section Replay.
Import VFS.
Local Open Scope js_scope.
Context {object : Type}.
Variable axios_get : string -> exn + object.
Variable isValidRemoteFile : object -> bool.
Variable fromObject : object -> M Heap positive.
Variable setMessageMetaIdInMetaChannel : positive -> string -> M Heap unit.




End Replay.

End AppExt.

(* ===================================================================== *)
(** ** More sample data                                                    *)
(* ===================================================================== *)

Module MoreExamples.
Import JS VFS VFSExt App AppExt.

(** A lookup that knows text files only. *)
Definition mime_table (name : string) : option string :=
  if decide (name = "a.txt"%string) then Some "text/plain"%string else None.

(** The sample tree with "a.txt" marked as deleted. *)
Definition tree_deleted : Heap := store_of (markDeleted 1 Examples.tree).

(** Steps that rename, move, detach and remove "a.txt", resize "b.txt"
    and construct a file. *)
Definition busy : list Step :=
  [OnFile 1 (SetFileName "z.txt");
   OnFile 1 (SetFolder 1 true);
   OnFile 2 (SetTotalSize 5);
   New "c.txt" 3 2 0 0;
   OnFile 1 (SetCreationDate 7);
   OnFile 1 Rm;
   OnFile 1 SetNullFolder;
   OnFile 1 Rm].

(** Options that name both channels "store". *)
Definition options_shared : DiscordFileStorageAppOptions :=
  mkOptions "store" "store" false None.
Definition app_shared : DiscordFileStorageApp :=
  mkApp "42" "store" "store" ["store"; "store"]%string false "".

(** The client once [prepare] has run on [Examples.client_online]: the
    guild's cache also holds the channel "files". *)
Definition client_prepared : Client :=
  mkClient {[ "42"%string := Examples.home ]}
           (fun g => Resolved (Some (guild_after g [ChannelsCreate "files" GuildText])))
           (fun _ => Resolved tt) (fun _ _ _ => Resolved tt).

(** A message whose attachment cannot be downloaded. *)
Definition gone : Message :=
  mkMessage "9" [mkAttachment "cdn/gone.json" "gone.json"].

(** A client on which the first channel creation resolves and every
    later one rejects. *)
Definition client_one_creation : Client :=
  mkClient {[ "42"%string := Examples.home ]} (fun g => Resolved (Some g))
           (fun _ => Resolved tt)
           (fun _ t _ => match created t with
                         | [] => Resolved tt
                         | _ :: _ => RejectedWith (Error "Maximum number of channels")
                         end).

(** The metadata channel "7" holding [hist], on a transport that
    resolves. *)
Definition channels_with (hist : list Message) (cid : string)
  : Settled (option TextChannel) :=
  if decide (cid = "7"%string) then Resolved (Some (serving hist)) else Resolved None.


End MoreExamples.

Module FileBaseFacts.
Import JS VFS.
Local Open Scope js_scope.

Ltac unfold_methods :=
  unfold getETag, getSize, getCreationDate, getModifyDate, getFolder, getFileName,
    getEntryName, setFileName, setModifyDate, setTotalSize, setCreationDate,
    setNullFolder, markDeleted, modify, store, load, bind, ret, throw in *.

Lemma load_Some h this f :
  fileObjs h !! this = Some f -> load this h = Ok f h.
Proof. intros E. unfold load. by rewrite E. Qed.

Lemma load_None h this :
  fileObjs h !! this = None -> load this h = Throw TypeError h.
Proof. intros E. unfold load. by rewrite E. Qed.

Lemma modify_files h this g :
  fileObjs (store_of (modify this g h)) !! this = g <$> fileObjs h !! this.
Proof.
  unfold_methods. destruct (fileObjs h !! this) as [f|] eqn:E; simpl.
  - by rewrite lookup_insert_eq.
  - by rewrite E.
Qed.

Lemma modify_files_ne h this g r :
  r <> this -> fileObjs (store_of (modify this g h)) !! r = fileObjs h !! r.
Proof.
  intros Hne. unfold_methods. destruct (fileObjs h !! this) as [f|] eqn:E; simpl; [|done].
  by rewrite lookup_insert_ne.
Qed.

Lemma modify_folders h this g :
  folderObjs (store_of (modify this g h)) = folderObjs h.
Proof. unfold_methods. by destruct (fileObjs h !! this). Qed.

Lemma removeFile_files fr file h :
  fileObjs (store_of (Folder_removeFile fr file h)) = fileObjs h.
Proof. unfold Folder_removeFile. by destruct (folderObjs h !! fr). Qed.

Lemma addFile_files fr file h :
  fileObjs (store_of (Folder_addFile fr file h)) = fileObjs h.
Proof.
  unfold Folder_addFile.
  by destruct (folderObjs h !! fr), (fileObjs h !! file).
Qed.

Lemma store_of_bind {S A B} (m : M S A) (k : A -> M S B) s :
  store_of (bind m k s) =
  match m s with
  | Ok a s' => store_of (k a s')
  | Throw _ s' => s'
  end.
Proof. unfold bind. by destruct (m s). Qed.

(** A field that [g] does not touch reads the same after [modify]. *)
Lemma modify_field {A} (proj : FileBase -> A) h this g r :
  (forall f, proj (g f) = proj f) ->
  proj <$> fileObjs (store_of (modify this g h)) !! r = proj <$> fileObjs h !! r.
Proof.
  intros Hg. destruct (decide (r = this)) as [->|Hne].
  - rewrite modify_files. destruct (fileObjs h !! this); simpl; [|done]. by rewrite Hg.
  - by rewrite modify_files_ne.
Qed.

(** [setFolder] rewrites the folder field of [this] and the child mappings
    of folders: every other field of every file is as before. *)
Lemma setFolder_field {A} (proj : FileBase -> A) h this fr up r :
  (forall f o, proj (with_folder f o) = proj f) ->
  proj <$> fileObjs (store_of (setFolder this fr up h)) !! r = proj <$> fileObjs h !! r.
Proof.
  intros Hp. unfold setFolder. rewrite store_of_bind.
  destruct (load this h) as [f h0|e h0] eqn:El.
  2:{ unfold load in El. destruct (fileObjs h !! this); by simplify_eq. }
  assert (h0 = h) as ->.
  { unfold load in El. destruct (fileObjs h !! this); by simplify_eq. }
  destruct up, (folder f) as [old|]; try (apply modify_field; intros; apply Hp).
  rewrite store_of_bind.
  destruct (Folder_removeFile old this h) as [[] h1|e h1] eqn:Er.
  - rewrite store_of_bind.
    assert (fileObjs h1 = fileObjs h) as E1.
    { pose proof (removeFile_files old this h) as X. by rewrite Er in X. }
    destruct (modify this (fun f0 => with_folder f0 (Some fr)) h1) as [[] h2|e h2] eqn:Em.
    + rewrite addFile_files.
      pose proof (modify_field proj h1 this (fun f0 => with_folder f0 (Some fr)) r) as X.
      rewrite Em in X. simpl in X. rewrite X, E1; [done|]. intros; apply Hp.
    + pose proof (modify_field proj h1 this (fun f0 => with_folder f0 (Some fr)) r) as X.
      rewrite Em in X. simpl in X. rewrite X, E1; [done|]. intros; apply Hp.
  - pose proof (removeFile_files old this h) as X. rewrite Er in X. simpl in X.
    by rewrite X.
Qed.

Lemma obs_getter {A} (proj : FileBase -> A) this h :
  obs ((f <- load this ;; ret (proj f)) h) =
  match proj <$> fileObjs h !! this with
  | Some a => inr a
  | None => inl TypeError
  end.
Proof. unfold_methods. by destruct (fileObjs h !! this). Qed.

(** C3. [getETag()] is a function of the pair (modifyDate, totalSize) as
    the getters show them: files that agree on both have the same ETag;
    the call only reads; the tag is not stored but follows the two fields
    on the next call; and [setModifyDate] / [setTotalSize] change that one
    field of that one file and nothing else in the store. *)
Theorem getETag_function_of_modifyDate_and_size h1 h2 r1 r2 :
  obs (getModifyDate r1 h1) = obs (getModifyDate r2 h2) ->
  obs (getSize r1 h1) = obs (getSize r2 h2) ->
  obs (getETag r1 h1) = obs (getETag r2 h2)
  /\ store_of (getETag r1 h1) = h1
  /\ (forall f d n,
        fileObjs h1 !! r1 = Some f ->
        obs (getETag r1 h1)
          = inr (pretty (modifyDate f) +:+ "-" +:+ pretty (totalSize f))%string
        /\ obs (getETag r1 (store_of (setModifyDate r1 d h1)))
          = inr (pretty d +:+ "-" +:+ pretty (totalSize f))%string
        /\ obs (getETag r1 (store_of (setTotalSize r1 n h1)))
          = inr (pretty (modifyDate f) +:+ "-" +:+ pretty n)%string)
  /\ (forall d n,
        let hd := store_of (setModifyDate r1 d h1) in
        let hn := store_of (setTotalSize r1 n h1) in
        fileObjs hd !! r1 = (fun f => with_modifyDate f d) <$> fileObjs h1 !! r1
        /\ fileObjs hn !! r1 = (fun f => with_totalSize f n) <$> fileObjs h1 !! r1
        /\ (forall r, r <> r1 -> fileObjs hd !! r = fileObjs h1 !! r
                                 /\ fileObjs hn !! r = fileObjs h1 !! r)
        /\ folderObjs hd = folderObjs h1 /\ folderObjs hn = folderObjs h1).
Proof.
  intros Hd Hs. repeat split.
  - unfold_methods.
    destruct (fileObjs h1 !! r1) as [f1|] eqn:E1, (fileObjs h2 !! r2) as [f2|] eqn:E2;
      simpl in *; rewrite ?E1, ?E2; simpl.
    all: simplify_eq; congruence.
  - unfold_methods. destruct (fileObjs h1 !! r1) as [f|] eqn:E; simpl; [|done].
    by rewrite E.
  - unfold_methods. rewrite H. simpl. by rewrite H.
  - unfold_methods. rewrite H. simpl. rewrite !lookup_insert_eq. simpl.
    by rewrite lookup_insert_eq.
  - unfold_methods. rewrite H. simpl. rewrite !lookup_insert_eq. simpl.
    by rewrite lookup_insert_eq.
  - apply modify_files.
  - apply modify_files.
  - by apply modify_files_ne.
  - by apply modify_files_ne.
  - apply modify_folders.
  - apply modify_folders.
Qed.

(** C4. [setFolder] (with or without [updateParents]) and [setFileName]
    leave what [getSize], [getCreationDate] and [getModifyDate] return for
    the file as it was. *)
Theorem move_rename_preserve_size_and_dates h this newFolder updateParents newName :
  let moved := store_of (setFolder this newFolder updateParents h) in
  let renamed := store_of (setFileName this newName h) in
  (obs (getSize this moved) = obs (getSize this h)
   /\ obs (getCreationDate this moved) = obs (getCreationDate this h)
   /\ obs (getModifyDate this moved) = obs (getModifyDate this h))
  /\ (obs (getSize this renamed) = obs (getSize this h)
      /\ obs (getCreationDate this renamed) = obs (getCreationDate this h)
      /\ obs (getModifyDate this renamed) = obs (getModifyDate this h)).
Proof.
  intros moved renamed. unfold getSize, getCreationDate, getModifyDate.
  rewrite !obs_getter. subst moved renamed. unfold setFileName.
  rewrite !setFolder_field by done.
  rewrite !modify_field by done.
  done.
Qed.

(** *** Parent chains *)

Lemma string_app_assoc (a b c : string) :
  ((a +:+ b) +:+ c = a +:+ (b +:+ c))%string.
Proof.
  induction a as [|x a IH]; [done|].
  change (String x ((a +:+ b) +:+ c) = String x (a +:+ b +:+ c)).
  by rewrite IH.
Qed.

Lemma anchored_unique fs fr n m :
  anchored fs fr n -> anchored fs fr m -> n = m.
Proof.
  intros Hn. revert m. induction Hn as [fr fo Hl Hp|fr fo p n Hl Hp Hn IH]; intros m Hm.
  - inversion Hm; simplify_eq; done.
  - inversion Hm as [|? ? ? m' ? ? Hm']; simplify_eq. f_equal. by apply IH.
Qed.

Lemma anchored_delete fs x k r :
  anchored fs x k ->
  (forall m, anchored fs r m -> (k < m)%nat) ->
  anchored (delete r fs) x k.
Proof.
  induction 1 as [x fo Hl Hp|x fo p n Hl Hp Hn IH]; intros Hr.
  - assert (x <> r) as Hne.
    { intros ->. specialize (Hr 0%nat (anchored_root _ _ _ Hl Hp)). lia. }
    eapply anchored_root; [|done]. by rewrite lookup_delete_ne.
  - assert (x <> r) as Hne.
    { intros ->. specialize (Hr _ (anchored_step _ _ _ _ _ Hl Hp Hn)). lia. }
    eapply anchored_step; [by rewrite lookup_delete_ne|done|].
    apply IH. intros m Hm. specialize (Hr m Hm). lia.
Qed.

(** A finite parent chain visits no folder twice, so it is shorter than
    the number of folders in the store. *)
Lemma anchored_lt_size fs fr n :
  anchored fs fr n -> (n < size fs)%nat.
Proof.
  revert fs fr. induction n as [|n IH]; intros fs fr Hn.
  - inversion Hn as [? fo Hl|]; subst.
    assert (size fs <> 0%nat); [|lia].
    intros Hz. apply map_size_empty_inv in Hz. subst. by rewrite lookup_empty in Hl.
  - inversion Hn as [|? fo p ? Hl Hp Hn']; subst.
    assert (anchored (delete fr fs) p n) as Hd.
    { apply anchored_delete; [done|]. intros m Hm.
      pose proof (anchored_unique _ _ _ _ Hn Hm). lia. }
    apply IH in Hd. rewrite map_size_delete, Hl in Hd. simpl in Hd. lia.
Qed.

Lemma Folder_path_anchored fs fr n fuel :
  anchored fs fr n -> (n < fuel)%nat ->
  exists q, Folder_path fuel fs fr = inr (q +:+ "/")%string.
Proof.
  intros Hn. revert fuel.
  induction Hn as [fr fo Hl Hp|fr fo p n Hl Hp Hn IH]; intros [|fuel] Hf; try lia; simpl.
  - rewrite Hl, Hp. by exists ""%string.
  - rewrite Hl, Hp. destruct (IH fuel) as [q ->]; [lia|].
    exists ((q +:+ "/") +:+ name fo)%string.
    by rewrite !string_app_assoc.
Qed.

(** Once the fuel is enough, more fuel gives the same path. *)
Lemma Folder_path_fuel fs fr n fuel fuel' :
  anchored fs fr n -> (n < fuel)%nat -> (n < fuel')%nat ->
  Folder_path fuel fs fr = Folder_path fuel' fs fr.
Proof.
  intros Hn. revert fuel fuel'.
  induction Hn as [fr fo Hl Hp|fr fo p n Hl Hp Hn IH];
    intros [|fuel] [|fuel'] Hf Hf'; try lia; simpl; rewrite Hl, Hp; [done|].
  rewrite (IH fuel fuel'); [done|lia|lia].
Qed.

(** The folder walk fails only with the engine's errors. *)
Lemma Folder_path_no_Error fuel fs fr msg :
  Folder_path fuel fs fr <> inl (Error msg).
Proof.
  revert fr. induction fuel as [|k IH]; intros fr; simpl; [done|].
  destruct (fs !! fr) as [fo|]; [|done].
  destruct (parent fo) as [up|]; [|done].
  destruct (Folder_path k fs up) as [e|p] eqn:Eu; [|done].
  intros [= ->]. by eapply IH.
Qed.

Lemma Folder_getAbsolutePath_anchored h fr n :
  anchored (folderObjs h) fr n ->
  exists q, Folder_getAbsolutePath fr h = Ok (q +:+ "/")%string h.
Proof.
  intros Hn. unfold Folder_getAbsolutePath.
  destruct (Folder_path_anchored _ _ _ (size (folderObjs h)) Hn) as [q ->];
    [by eapply anchored_lt_size|].
  by exists q.
Qed.

(** C6. For a file attached to a folder (whose parent chain ends at a
    root), [getAbsolutePath()] returns the folder's absolute path followed
    by the file's name; the folder's path ends with the separator and is
    itself "/" for a root and the parent's path, the folder's name and the
    separator otherwise. *)
Theorem getAbsolutePath_is_folder_path_then_name h this f fr fo n :
  fileObjs h !! this = Some f ->
  folder f = Some fr ->
  folderObjs h !! fr = Some fo ->
  anchored (folderObjs h) fr n ->
  exists p,
    Folder_getAbsolutePath fr h = Ok p h
    /\ getAbsolutePath this h = Ok (p +:+ filename f)%string h
    /\ (exists q, p = (q +:+ "/")%string)
    /\ match parent fo with
       | None => p = "/"%string
       | Some up =>
           exists pp, Folder_getAbsolutePath up h = Ok pp h
                      /\ p = (pp +:+ name fo +:+ "/")%string
       end.
Proof.
  intros Hf Hfo Hl Hn.
  destruct (Folder_getAbsolutePath_anchored _ _ _ Hn) as [q Hq].
  exists (q +:+ "/")%string. split; [done|]. split.
  { unfold getAbsolutePath, getFileName, bind, ret.
    rewrite (load_Some _ _ _ Hf), Hfo, Hq. by rewrite (load_Some _ _ _ Hf). }
  split; [by exists q|].
  unfold Folder_getAbsolutePath in *.
  pose proof (anchored_lt_size _ _ _ Hn) as Hlt.
  inversion Hn as [? fo' Hl' Hp|? fo' up k Hl' Hp Hup]; simplify_eq; rewrite Hp.
  - destruct (size (folderObjs h)) as [|k] eqn:Es; [lia|].
    simpl in Hq. rewrite Hl, Hp in Hq. by simplify_eq.
  - destruct (size (folderObjs h)) as [|s] eqn:Es; [lia|].
    simpl in Hq. rewrite Hl, Hp in Hq.
    rewrite (Folder_path_fuel _ _ _ (S s) s Hup) by lia.
    destruct (Folder_path s (folderObjs h) up) as [e|pp]; [done|].
    exists pp. split; [done|]. by simplify_eq.
Qed.

(** C9. [getAbsolutePath()] throws [Error("Folder is null")] exactly when
    the file's folder reference is null, and it does so after
    [setNullFolder()]; with a non-null reference that [throw] is not
    reached. *)
Theorem getAbsolutePath_throws_iff_folder_null h this f :
  fileObjs h !! this = Some f ->
  (folder f = None <-> obs (getAbsolutePath this h) = inl (Error "Folder is null"))
  /\ (folder f = None -> getAbsolutePath this h = Throw (Error "Folder is null") h)
  /\ (let h' := store_of (setNullFolder this h) in
      getAbsolutePath this h' = Throw (Error "Folder is null") h')
  /\ (forall fr, folder f = Some fr ->
        getAbsolutePath this h
        = (p <- Folder_getAbsolutePath fr ;; ret (p +:+ filename f)%string) h).
Proof.
  intros Hf.
  assert (forall fr, folder f = Some fr ->
            getAbsolutePath this h
            = (p <- Folder_getAbsolutePath fr ;; ret (p +:+ filename f)%string) h) as Hsome.
  { intros fr Hfr. unfold getAbsolutePath, getFileName, bind, ret.
    rewrite (load_Some _ _ _ Hf), Hfr.
    unfold Folder_getAbsolutePath.
    destruct (Folder_path _ _ fr); [done|]. by rewrite (load_Some _ _ _ Hf). }
  assert (folder f = None -> getAbsolutePath this h = Throw (Error "Folder is null") h)
    as Hnone.
  { intros Hn. unfold getAbsolutePath, bind, throw.
    by rewrite (load_Some _ _ _ Hf), Hn. }
  split; [|split; [done|split; [|done]]].
  - split.
    + intros Hn. by rewrite Hnone.
    + destruct (folder f) as [fr|] eqn:Hfr; [|done].
      rewrite (Hsome fr eq_refl). unfold bind, ret, Folder_getAbsolutePath.
      destruct (Folder_path _ _ fr) as [e|p] eqn:Ep; simpl; [|done].
      intros [= ->]. by apply Folder_path_no_Error in Ep.
  - simpl. unfold setNullFolder, modify, store, bind.
    rewrite (load_Some _ _ _ Hf). simpl.
    unfold getAbsolutePath, bind, throw, load. simpl.
    by rewrite lookup_insert_eq.
Qed.

(** C10. For a file attached to a folder, [rm()] returns that folder and
    takes the file out of the folder's child mapping (the other children
    stay), and it writes nothing else: the file objects are as before, so
    [getFolder()] still returns the old folder, not null. *)
Theorem rm_keeps_parent_reference h this f fr fo :
  fileObjs h !! this = Some f ->
  folder f = Some fr ->
  folderObjs h !! fr = Some fo ->
  exists fo' h',
    h' = mkHeap (fileObjs h) (<[fr := fo']> (folderObjs h))
    /\ rm this h = Ok fr h'
    /\ name fo' = name fo /\ parent fo' = parent fo
    /\ (forall k, children fo' !! k <> Some (FileChild this))
    /\ (forall k c, c <> FileChild this ->
          children fo' !! k = Some c <-> children fo !! k = Some c)
    /\ getFolder this h' = Ok (Some fr) h'
    /\ getFolder this h = Ok (Some fr) h.
Proof.
  intros Hf Hfr Hl.
  exists (with_children fo (filter (fun kv => kv.2 <> FileChild this) (children fo))).
  eexists. split; [reflexivity|]. simpl. repeat split.
  - unfold rm, bind, ret. rewrite (load_Some _ _ _ Hf), Hfr.
    unfold Folder_removeFile. by rewrite Hl.
  - intros k Hk. apply map_lookup_filter_Some in Hk as [_ Hk]. by simpl in Hk.
  - intros Hk. by apply map_lookup_filter_Some in Hk as [Hk _].
  - intros Hk. by apply map_lookup_filter_Some.
  - unfold getFolder, bind, ret, load. simpl. by rewrite Hf, Hfr.
  - unfold getFolder, bind, ret. by rewrite (load_Some _ _ _ Hf), Hfr.
Qed.

(** *** The sample tree *)

Example tree_etag : obs (getETag 1 Examples.tree) = inr "2000-11"%string.
Proof. vm_compute. reflexivity. Qed.

Example tree_path : obs (getAbsolutePath 1 Examples.tree) = inr "/docs/a.txt"%string.
Proof. vm_compute. reflexivity. Qed.

Example tree_rename_keeps_listing :
  (children <$> folderObjs (store_of (setFileName 1 "z.txt" Examples.tree)) !! 2%positive)
  = Some {[ "a.txt"%string := FileChild 1 ]}.
Proof. vm_compute. reflexivity. Qed.

Lemma docs_anchored : anchored (folderObjs Examples.tree) 2 1.
Proof.
  eapply anchored_step; [reflexivity|reflexivity|].
  eapply anchored_root; reflexivity.
Qed.

Lemma getETag_function_of_modifyDate_and_size_witness :
  obs (getModifyDate 1 Examples.tree) = obs (getModifyDate 2 Examples.tree)
  /\ obs (getSize 1 Examples.tree) = obs (getSize 2 Examples.tree)
  /\ obs (getETag 1 Examples.tree) = obs (getETag 2 Examples.tree).
Proof.
  split; [reflexivity|]. split; [reflexivity|].
  refine (proj1 (getETag_function_of_modifyDate_and_size
                   Examples.tree Examples.tree 1 2 _ _)); reflexivity.
Defined.

Lemma getAbsolutePath_is_folder_path_then_name_witness :
  fileObjs Examples.tree !! 1%positive = Some Examples.file_a
  /\ folder Examples.file_a = Some 2%positive
  /\ folderObjs Examples.tree !! 2%positive = Some Examples.docs
  /\ getAbsolutePath 1 Examples.tree = Ok "/docs/a.txt"%string Examples.tree.
Proof.
  split; [reflexivity|]. split; [reflexivity|]. split; [reflexivity|].
  destruct (getAbsolutePath_is_folder_path_then_name
              Examples.tree 1 Examples.file_a 2 Examples.docs 1
              eq_refl eq_refl eq_refl docs_anchored) as (p & Hp & Hpath & _).
  vm_compute in Hp. injection Hp as <-. exact Hpath.
Defined.

Lemma getAbsolutePath_throws_iff_folder_null_witness :
  fileObjs Examples.tree !! 2%positive = Some Examples.file_b
  /\ getAbsolutePath 2 Examples.tree = Throw (Error "Folder is null") Examples.tree.
Proof.
  split; [reflexivity|].
  refine (proj1 (proj2 (getAbsolutePath_throws_iff_folder_null
                          Examples.tree 2 Examples.file_b _)) _); reflexivity.
Defined.

Lemma rm_keeps_parent_reference_witness :
  fileObjs Examples.tree !! 1%positive = Some Examples.file_a
  /\ folder Examples.file_a = Some 2%positive
  /\ folderObjs Examples.tree !! 2%positive = Some Examples.docs
  /\ obs (rm 1 Examples.tree) = inr 2%positive
  /\ getFolder 1 (store_of (rm 1 Examples.tree))
     = Ok (Some 2%positive) (store_of (rm 1 Examples.tree)).
Proof.
  split; [reflexivity|]. split; [reflexivity|]. split; [reflexivity|].
  destruct (rm_keeps_parent_reference Examples.tree 1 Examples.file_a 2 Examples.docs
              eq_refl eq_refl eq_refl) as (fo' & h' & _ & Hrm & _ & _ & _ & _ & Hget & _).
  rewrite Hrm. split; [reflexivity|exact Hget].
Defined.

End FileBaseFacts.

Module AppFacts.
Import JS App AppExt.
Local Open Scope js_scope.

(** *** The constructor and the configuration getters *)

(** C7. The encryption settings are those given to the constructor: for
    every constructed app, [shouldEncryptFiles()] is [options.shouldEncrypt]
    and [getEncryptPassword()] is [options.encryptPassword], or the empty
    string when that option is left out.  Both getters read the app object
    only: they take no file and have no state to change between calls. *)
Theorem encryption_settings_are_the_constructor_options options gid instance this after :
  constructor options gid instance = Ok this after ->
  shouldEncryptFiles this = opt_shouldEncrypt options
  /\ getEncryptPassword this = nullish (opt_encryptPassword options) ""
  /\ (opt_encryptPassword options = None -> getEncryptPassword this = ""%string)
  /\ (forall p, opt_encryptPassword options = Some p -> getEncryptPassword this = p)
  /\ after = Some this.
Proof.
  unfold constructor. destruct instance as [old|]; [done|].
  intros [= <- <-]. unfold shouldEncryptFiles, getEncryptPassword; simpl.
  repeat split; [by intros ->|by intros p ->].
Qed.

Lemma construct_all_set calls existing :
  Forall (fun r => constructed r = false) (construct_all calls (Some existing)).1
  /\ (construct_all calls (Some existing)).2 = Some existing.
Proof.
  induction calls as [|[o g] calls [IH1 IH2]]; simpl; [by split|].
  destruct (construct_all calls (Some existing)) as [rs final]. simpl in *.
  split; [|done]. by constructor.
Qed.

Lemma filter_none {A} (P : A -> bool) (l : list A) :
  Forall (fun x => P x = false) l -> List.filter P l = [].
Proof. induction 1 as [|x l Hx _ IH]; simpl; [done|]. by rewrite Hx. Qed.

(** C8. With the static [instance] already set, the constructor throws
    [Error("DiscordFileStorageApp already exists")] and the registered
    instance stays; so however often a process calls the constructor, at
    most one call returns an app. *)
Theorem constructor_throws_when_instance_exists options gid existing :
  constructor options gid (Some existing)
  = Throw (Error "DiscordFileStorageApp already exists") (Some existing)
  /\ (forall calls instance,
        (length (List.filter constructed (construct_all calls instance).1) <= 1)%nat).
Proof.
  split; [done|].
  intros calls [old|].
  - destruct (construct_all_set calls old) as [H _].
    rewrite (filter_none _ _ H). simpl. lia.
  - destruct calls as [|[o g] calls]; simpl; [lia|].
    match goal with |- context [construct_all calls (Some ?a)] =>
      destruct (construct_all_set calls a) as [H _];
      destruct (construct_all calls (Some a)) as [rs final] end.
    simpl in *. rewrite (filter_none _ _ H). simpl. lia.
Qed.

(** *** Startup *)

(** One turn of the loop: the channel exists and is reported, or it is
    announced and then created, unless the creation rejects. *)
Lemma ensure_channel_eq client guild gc c u :
  ensure_channel client guild gc c u
  = if existsb (fun channel => bool_decide (channel_name channel = c)) gc
    then (Returned tt, u ++ [ConsoleLog (Some green) ("channel already exists: " +:+ c)])
    else match guild_channels_create client guild
                 (u ++ [ConsoleLog None ("creating channel: " +:+ c)]) c with
         | Resolved _ =>
             (Returned tt, u ++ [ConsoleLog None ("creating channel: " +:+ c);
                                 ChannelsCreate c GuildText])
         | RejectedWith e =>
             (Rejected e, u ++ [ConsoleLog None ("creating channel: " +:+ c)])
         end.
Proof.
  unfold ensure_channel, pbind, emit, await_at, await.
  destruct (existsb _ gc); [done|].
  destruct (guild_channels_create _ _ _ c); [|done]. by rewrite <- app_assoc.
Qed.

Lemma for_each_cons {A} (body : A -> Proc unit) x l u :
  for_each body (x :: l) u
  = match body x u with
    | (Returned _, u') => for_each body l u'
    | (Exited code, u') => (Exited code, u')
    | (Rejected e, u') => (Rejected e, u')
    end.
Proof. simpl. unfold pbind. by destruct (body x u) as [[]]. Qed.

Lemma for_each_ensure_channel client guild gc l u :
  exists out rest,
    for_each (ensure_channel client guild gc) l u = (out, u ++ rest)
    /\ forall code, out <> Exited code.
Proof.
  revert u. induction l as [|c l IH]; intros u.
  - exists (Returned tt), []. by rewrite app_nil_r.
  - rewrite for_each_cons, ensure_channel_eq. destruct (existsb _ gc).
    + destruct (IH (u ++ [ConsoleLog (Some green) ("channel already exists: " +:+ c)]))
        as (out & rest & -> & Hout).
      eexists out, (_ :: rest). by rewrite <- app_assoc.
    + destruct (guild_channels_create _ _ _ c).
      * destruct (IH (u ++ [ConsoleLog None ("creating channel: " +:+ c);
                            ChannelsCreate c GuildText])) as (out & rest & -> & Hout).
        eexists out, (_ :: _ :: rest). by rewrite <- app_assoc.
      * by eexists (Rejected e), [_].
Qed.

(** [prepare()] once the guild is fetched. *)
Lemma prepare_with_guild this client cached guild t :
  guilds_cache client !! guildId this = Some cached ->
  guild_fetch client cached = Resolved (Some guild) ->
  prepare this client t
  = match guild_channels_fetch client guild with
    | Resolved _ =>
        for_each (ensure_channel client guild
                    (List.filter
                       (fun channel => bool_decide (channel_type channel = GuildText))
                       (guild_channels guild)))
                 (channelsToCreate this)
                 (t ++ [LoggerInfo ("Guild found: " +:+ guild_name guild);
                        ConsoleLog (Some yellow) "Fetching channels...";
                        ChannelsFetch])
    | RejectedWith e =>
        (Rejected e, t ++ [LoggerInfo ("Guild found: " +:+ guild_name guild);
                           ConsoleLog (Some yellow) "Fetching channels..."])
    end.
Proof.
  intros Hc Hf. unfold prepare, pbind, printAndExit, pbind, emit, process_exit, await, pret.
  rewrite Hc, Hf. case_bool_decide as Hd; [|by destruct Hd; eauto].
  destruct (guild_channels_fetch client guild); rewrite <- !app_assoc; [|done].
  simpl. by destruct (for_each _ _ _) as [[]].
Qed.

(** The ways [prepare()] ends.  A guild id missing from the cache, or a
    fetch that resolves without a guild, prints the message in red and
    exits with code 1; a fetch that rejects makes [prepare()] reject with
    the same error; in these three cases nothing else is printed and no
    channel is fetched or created.  With a fetched guild it announces the
    guild and goes on to the channels, where it does not exit. *)
Lemma prepare_stops_without_guild this client t :
  match guilds_cache client !! guildId this with
  | None =>
      prepare this client t
      = (Exited 1, t ++ [ConsoleLog (Some red) "Guild not found"])
  | Some cached =>
      match guild_fetch client cached with
      | Resolved None =>
          prepare this client t
          = (Exited 1,
             t ++ [ConsoleLog (Some red) ("Failed to fetch guild: " +:+ guildId this)])
      | RejectedWith e =>
          prepare this client t = (Rejected e, t)
      | Resolved (Some guild) =>
          exists out rest,
            prepare this client t
            = (out, t ++ [LoggerInfo ("Guild found: " +:+ guild_name guild);
                          ConsoleLog (Some yellow) "Fetching channels..."] ++ rest)
            /\ forall code, out <> Exited code
      end
  end.
Proof.
  destruct (guilds_cache client !! guildId this) as [cached|] eqn:E.
  2:{ unfold prepare, pbind, printAndExit, pbind, emit, process_exit, await, pret.
      rewrite E. case_bool_decide as Hc; [by destruct Hc|done]. }
  destruct (guild_fetch client cached) as [[guild|]|e] eqn:Hf.
  - rewrite (prepare_with_guild _ _ _ _ t E Hf).
    destruct (guild_channels_fetch client guild).
    + destruct (for_each_ensure_channel client guild
                  (List.filter
                     (fun channel => bool_decide (channel_type channel = GuildText))
                     (guild_channels guild))
                  (channelsToCreate this)
                  (t ++ [LoggerInfo ("Guild found: " +:+ guild_name guild);
                         ConsoleLog (Some yellow) "Fetching channels...";
                         ChannelsFetch])) as (out & rest & -> & Hout).
      exists out, (ChannelsFetch :: rest). split; [|done].
      by rewrite <- !app_assoc.
    + exists (Rejected e), []. by rewrite app_nil_r.
  - unfold prepare, pbind, printAndExit, pbind, emit, process_exit, await, pret.
    rewrite E, Hf. by case_bool_decide as Hc; [|destruct Hc; eauto].
  - unfold prepare, pbind, printAndExit, pbind, emit, process_exit, await, pret.
    rewrite E, Hf. by case_bool_decide as Hc; [|destruct Hc; eauto].
Qed.

(** C5. The claim fails on a guild that is in the cache and cannot be
    fetched.  Nothing catches the rejection of the awaited [fetch()], so
    [prepare()] rejects with the error of the fetch before it reaches
    [if (!guild) printAndExit(...)]: nothing is printed and the process
    does not exit.  The two neighbouring paths do what the claim says: a
    guild id missing from the cache, and a fetch that resolves without a
    guild, print the message in red and exit with code 1. *)
Theorem prepare_rejects_when_guild_fetch_rejects this client cached e t :
  guilds_cache client !! guildId this = Some cached ->
  guild_fetch client cached = RejectedWith e ->
  prepare this client t = (Rejected e, t)
  /\ (forall code t', prepare this client t <> (Exited code, t'))
  /\ (forall other,
        guilds_cache other !! guildId this = None ->
        prepare this other t
        = (Exited 1, t ++ [ConsoleLog (Some red) "Guild not found"]))
  /\ (forall other cached',
        guilds_cache other !! guildId this = Some cached' ->
        guild_fetch other cached' = Resolved None ->
        prepare this other t
        = (Exited 1,
           t ++ [ConsoleLog (Some red) ("Failed to fetch guild: " +:+ guildId this)])).
Proof.
  intros Hc Hf.
  pose proof (prepare_stops_without_guild this client t) as H.
  rewrite Hc, Hf in H. split; [done|]. split; [by rewrite H|]. split.
  - intros other Ho. pose proof (prepare_stops_without_guild this other t) as H'.
    by rewrite Ho in H'.
  - intros other cached' Ho Hf'.
    pose proof (prepare_stops_without_guild this other t) as H'.
    by rewrite Ho, Hf' in H'.
Qed.

(** *** Reading the metadata channel *)







Lemma getAllMessages_loop_S fuel channel acc lastId out :
  getAllMessages_loop (S fuel) channel acc lastId out
  = match channel 100%nat (fetch_options_before lastId) with
    | RejectedWith e => Some (RejectedWith e, out)
    | Resolved messages =>
        if (length messages <? 100)%nat
        then Some (Resolved (acc ++ messages), out ++ [block_line (length messages)])
        else getAllMessages_loop fuel channel (acc ++ messages) (id <$> last messages)
               (out ++ [block_line (length messages)])
    end.
Proof. done. Qed.



(** The body of the loop is run once for [messages[k]], with [i = k],
    after the messages before it and before the messages after it. *)
Lemma loadFiles_loop_at {object} axios_get isValid
      (fromObject : object -> M VFS.Heap positive) setId i n before msg after st :
  loadFiles_loop axios_get isValid fromObject setId i n (before ++ msg :: after) st
  = (loadFiles_loop axios_get isValid fromObject setId i n before ;;;
     load_message axios_get isValid fromObject setId (i + length before) n msg ;;;
     loadFiles_loop axios_get isValid fromObject setId (S (i + length before)) n after) st.
Proof.
  revert i st. induction before as [|m before IH]; intros i st.
  - simpl. by rewrite Nat.add_0_r.
  - replace (i + length (m :: before))%nat with (S i + length before)%nat
      by (simpl; lia).
    specialize (IH (S i)). cbn [app loadFiles_loop]. unfold bind in *.
    destruct (load_message axios_get isValid fromObject setId i n m st)
      as [[] st'|e st']; [|done].
    by rewrite IH.
Qed.




(** *** Rebuilding the tree *)

Section LoadFacts.
Context {object : Type}.
Variable axios_get : string -> exn + object.
Variable isValidRemoteFile : object -> bool.
Variable fromObject : object -> M VFS.Heap positive.
Variable setMessageMetaIdInMetaChannel : positive -> string -> M VFS.Heap unit.

Local Abbreviation step :=
  (load_message axios_get isValidRemoteFile fromObject setMessageMetaIdInMetaChannel).
Local Abbreviation loop :=
  (loadFiles_loop axios_get isValidRemoteFile fromObject setMessageMetaIdInMetaChannel).
Local Abbreviation bad := (malformed axios_get isValidRemoteFile).




Lemma loop_cons i n m msgs st :
  loop i n (m :: msgs) st
  = match step i n m st with
    | Ok _ st' => loop (S i) n msgs st'
    | Throw e st' => Throw e st'
    end.
Proof. done. Qed.









End LoadFacts.

(** *** Sample runs *)

Example construct_twice :
  (construct_all [(Examples.options_plain, "42"%string);
                  (Examples.options_plain, "43"%string)] None).1
  = [inr Examples.app_plain; inl (Error "DiscordFileStorageApp already exists")].
Proof. reflexivity. Qed.

Example prepare_online :
  prepare Examples.app_plain Examples.client_online []
  = (Returned tt,
     [LoggerInfo "Guild found: home";
      ConsoleLog (Some yellow) "Fetching channels...";
      ChannelsFetch;
      ConsoleLog (Some green) "channel already exists: meta";
      ConsoleLog None "creating channel: files";
      ChannelsCreate "files" GuildText]).
Proof. vm_compute. reflexivity. Qed.

Example rebuild_sample :
  let r := loadFiles_loop Examples.download Examples.complete Examples.build
                          Examples.set_meta_id 0 4 Examples.history Examples.start in
  obs r = inr tt
  /\ totalLoadedFiles (store_of r) = 3%nat
  /\ failedFiles (store_of r) = 1%nat
  /\ obs (VFS.getAbsolutePath 3 (filesystem (store_of r))) = inr "/docs/d.txt"%string
  /\ obs (VFS.getAbsolutePath 4 (filesystem (store_of r))) = inr "/docs/c.txt"%string.
Proof. vm_compute. repeat split. Qed.

Example rebuild_download_rejected :
  obs (loadFiles_loop Examples.download Examples.complete Examples.build
                      Examples.set_meta_id 0 2
                      [Examples.broken; mkMessage "1" [mkAttachment "cdn/gone.json" "x"]]
                      Examples.start)
  = inl (Error "ECONNRESET").
Proof. vm_compute. reflexivity. Qed.

Lemma encryption_settings_are_the_constructor_options_witness :
  constructor Examples.options_plain "42" None
  = Ok Examples.app_plain (Some Examples.app_plain)
  /\ shouldEncryptFiles Examples.app_plain = true
  /\ getEncryptPassword Examples.app_plain = ""%string.
Proof.
  split; [reflexivity|].
  destruct (encryption_settings_are_the_constructor_options
              Examples.options_plain "42" None Examples.app_plain
              (Some Examples.app_plain) eq_refl) as (H1 & _ & H3 & _).
  split; [exact H1|exact (H3 eq_refl)].
Defined.

Lemma prepare_rejects_when_guild_fetch_rejects_witness :
  guilds_cache Examples.client_rejecting !! guildId Examples.app_plain = Some Examples.home
  /\ guild_fetch Examples.client_rejecting Examples.home
     = RejectedWith (Error "Missing Access")
  /\ prepare Examples.app_plain Examples.client_rejecting []
     = (Rejected (Error "Missing Access"), []).
Proof.
  split; [reflexivity|]. split; [reflexivity|].
  exact (proj1 (prepare_rejects_when_guild_fetch_rejects
                  Examples.app_plain Examples.client_rejecting Examples.home
                  (Error "Missing Access") [] eq_refl eq_refl)).
Defined.





End AppFacts.

(* ===================================================================== *)
(** ** Further properties of FileBase.ts                                   *)
(* ===================================================================== *)

Module FileBaseMore.
Import JS VFS VFSExt FileBaseFacts.
Local Open Scope js_scope.

(** *** What a sequence of calls keeps *)

Lemma rm_files this h : fileObjs (store_of (rm this h)) = fileObjs h.
Proof.
  unfold rm. rewrite store_of_bind. unfold load.
  destruct (fileObjs h !! this) as [f|]; [|done].
  destruct (folder f) as [fr|]; [|done].
  rewrite store_of_bind.
  pose proof (removeFile_files fr this h) as E.
  by destruct (Folder_removeFile fr this h).
Qed.

Lemma New_files nm sz fr d1 d2 h r :
  is_Some (fileObjs h !! r) ->
  fileObjs (store_of (FileBase_new nm sz fr d1 d2 h)) !! r = fileObjs h !! r.
Proof.
  intros Hr. unfold FileBase_new. rewrite store_of_bind. unfold store at 1.
  rewrite store_of_bind.
  match goal with |- context [Folder_addFile fr ?x ?h0] =>
    pose proof (addFile_files fr x h0) as E;
    destruct (Folder_addFile fr x h0) as [[] h1|e h1] end;
    simpl in *; rewrite E; apply lookup_insert_ne;
    intros <-; apply elem_of_dom in Hr; by apply is_fresh in Hr.
Qed.

(** [setFolder] writes at most the folder field of [this]. *)
Lemma setFolder_files this fr up h :
  fileObjs (store_of (setFolder this fr up h)) = fileObjs h
  \/ exists f, fileObjs h !! this = Some f
               /\ fileObjs (store_of (setFolder this fr up h))
                  = <[this := with_folder f (Some fr)]> (fileObjs h).
Proof.
  unfold setFolder. rewrite store_of_bind. unfold load.
  destruct (fileObjs h !! this) as [f|] eqn:Hf; [|by left].
  assert (forall h0, fileObjs h0 = fileObjs h ->
            fileObjs (store_of (modify this (fun f0 => with_folder f0 (Some fr)) h0))
            = <[this := with_folder f (Some fr)]> (fileObjs h)) as Hm.
  { intros h0 E. unfold modify, load, store, bind. rewrite E, Hf. simpl. by rewrite E. }
  destruct up, (folder f) as [old|]; try (right; exists f; split; [done|by apply Hm]).
  rewrite store_of_bind.
  pose proof (removeFile_files old this h) as E1.
  destruct (Folder_removeFile old this h) as [[] h1|e h1]; simpl in E1; [|by left].
  rewrite store_of_bind.
  pose proof (Hm h1 E1) as E2.
  destruct (modify this (fun f0 => with_folder f0 (Some fr)) h1) as [[] h2|e h2];
    simpl in E2.
  - right. exists f. split; [done|]. by rewrite addFile_files.
  - right. exists f. by split.
Qed.

(** A field that no [with_folder] touches, and a property [Q] of its
    value that the calls on [r] keep: [Q] holds after the step. *)
Lemma step_keeps {A} (proj : FileBase -> A) (Q : A -> Prop) s h r :
  (forall f o, proj (with_folder f o) = proj f) ->
  (forall c, s = OnFile r c ->
     match c with
     | MarkDeleted => forall f, Q (proj f) -> Q (proj (with_markedDeleted f true))
     | SetFileName n => forall f, Q (proj f) -> Q (proj (with_filename f n))
     | SetCreationDate d => forall f, Q (proj f) -> Q (proj (with_creationDate f d))
     | SetModifyDate d | UpdateModifyDate d =>
         forall f, Q (proj f) -> Q (proj (with_modifyDate f d))
     | SetTotalSize n => forall f, Q (proj f) -> Q (proj (with_totalSize f n))
     | _ => True
     end) ->
  (exists f, fileObjs h !! r = Some f /\ Q (proj f)) ->
  exists f, fileObjs (store_of (step s h)) !! r = Some f /\ Q (proj f).
Proof.
  intros Hfolder Hs (f & Hf & HQ).
  destruct s as [this c|nm sz fr d1 d2]; cbn [step call].
  2:{ rewrite store_of_bind.
      pose proof (New_files nm sz fr d1 d2 h r (ltac:(eauto))) as E.
      destruct (FileBase_new nm sz fr d1 d2 h); simpl in *; rewrite E; eauto. }
  destruct c as [| |fr up|n|d|d|d|n|]; cbn [step call].
  3:{ destruct (setFolder_files this fr up h) as [->|(f0 & Hf0 & ->)]; [eauto|].
      destruct (decide (this = r)) as [->|Hne].
      - rewrite lookup_insert_eq. simplify_eq. eexists. split; [done|].
        by rewrite Hfolder.
      - rewrite lookup_insert_ne by done. eauto. }
  8:{ rewrite store_of_bind.
      pose proof (rm_files this h) as E.
      destruct (rm this h); simpl in *; rewrite E; eauto. }
  all: unfold markDeleted, setNullFolder, setFileName, setCreationDate, setModifyDate,
      updateModifyDate, setTotalSize.
  all: destruct (decide (this = r)) as [->|Hne];
    [specialize (Hs _ eq_refl); rewrite modify_files, Hf; simpl; eexists;
     (split; [done|]); rewrite ?Hfolder; eauto
    |rewrite modify_files_ne by done; eauto].
Qed.

Lemma run_keeps {A} (proj : FileBase -> A) (Q : A -> Prop) steps h r :
  (forall f o, proj (with_folder f o) = proj f) ->
  (forall c, OnFile r c ∈ steps ->
     match c with
     | MarkDeleted => forall f, Q (proj f) -> Q (proj (with_markedDeleted f true))
     | SetFileName n => forall f, Q (proj f) -> Q (proj (with_filename f n))
     | SetCreationDate d => forall f, Q (proj f) -> Q (proj (with_creationDate f d))
     | SetModifyDate d | UpdateModifyDate d =>
         forall f, Q (proj f) -> Q (proj (with_modifyDate f d))
     | SetTotalSize n => forall f, Q (proj f) -> Q (proj (with_totalSize f n))
     | _ => True
     end) ->
  (exists f, fileObjs h !! r = Some f /\ Q (proj f)) ->
  exists f, fileObjs (run steps h) !! r = Some f /\ Q (proj f).
Proof.
  intros Hfolder. revert h. induction steps as [|s steps IH]; intros h Hs Hh; [done|].
  simpl. apply IH.
  - intros c Hc. apply Hs. by right.
  - apply (step_keeps proj Q); [done| |done].
    intros c ->. apply Hs. by left.
Qed.

(** X4. No method of [FileBase] clears the deletion mark: once
    [isMarkedDeleted()] is true it stays true whatever is called, on this
    file or on others, and whatever files are constructed. *)
Theorem markDeleted_is_permanent steps h r :
  obs (isMarkedDeleted r h) = inr true ->
  obs (isMarkedDeleted r (run steps h)) = inr true
  /\ obs (isMarkedDeleted r (store_of (markDeleted r (run steps h)))) = inr true.
Proof.
  unfold isMarkedDeleted. rewrite !obs_getter.
  destruct (fileObjs h !! r) as [f|] eqn:Hf; simpl; [|done].
  intros [= Hd].
  destruct (run_keeps markedDeleted (fun b => b = true) steps h r) as (f' & Hf' & Hd').
  - done.
  - intros c _. by destruct c.
  - eauto.
  - rewrite Hf'. simpl. rewrite Hd'. split; [done|].
    unfold markDeleted. by rewrite modify_files, Hf'.
Qed.

(** X6. Renaming, moving, detaching, removing from the folder,
    marking as deleted and changing the creation date leave the ETag
    alone: after any steps among which the file itself gets no
    [setModifyDate], [updateModifyDate] or [setTotalSize], [getETag()]
    returns what it returned before. *)
Theorem getETag_changes_only_with_date_or_size steps h r :
  is_Some (fileObjs h !! r) ->
  (forall c, OnFile r c ∈ steps -> keeps_etag c = true) ->
  obs (getETag r (run steps h)) = obs (getETag r h).
Proof.
  intros [f Hf] Hsteps.
  destruct (run_keeps (fun f => (modifyDate f, totalSize f))
              (fun v => v = (modifyDate f, totalSize f)) steps h r)
    as (f' & Hf' & [= Hd Hs]).
  - done.
  - intros c Hc. specialize (Hsteps c Hc). by destruct c.
  - eauto.
  - unfold getETag, getSize, bind, ret, load. rewrite Hf, Hf'. simpl.
    by rewrite Hf, Hf', Hd, Hs.
Qed.

(** *** The ETag as a key *)

Lemma pretty_N_char_not_dash x : pretty_N_char x <> "-"%char.
Proof. unfold pretty_N_char. by repeat case_match. Qed.

Lemma pretty_N_go_dashfree x s : dashfree s -> dashfree (pretty_N_go x s).
Proof.
  revert s. induction (N.lt_wf_0 x) as [x _ IH]; intros s Hs.
  assert (x = 0 \/ 0 < x)%N as [->|Hx] by lia.
  - by rewrite pretty_N_go_0.
  - rewrite pretty_N_go_step by done. apply IH; [by apply N.div_lt|].
    split; [apply pretty_N_char_not_dash|done].
Qed.

Lemma pretty_N_go_length x s :
  (String.length s <= String.length (pretty_N_go x s))%nat.
Proof.
  revert s. induction (N.lt_wf_0 x) as [x _ IH]; intros s.
  assert (x = 0 \/ 0 < x)%N as [->|Hx] by lia.
  - by rewrite pretty_N_go_0.
  - rewrite pretty_N_go_step by done.
    etrans; [|apply IH; by apply N.div_lt]. simpl. lia.
Qed.

(** The decimal digits of a natural number: no dash, and at least one
    digit. *)
Lemma pretty_N_digits (x : N) : dashfree (pretty x) /\ pretty x <> ""%string.
Proof.
  unfold pretty, pretty_N. case_decide as Hx.
  - split; [|done]. simpl. split; [done|done].
  - split; [by apply pretty_N_go_dashfree|].
    rewrite pretty_N_go_step by lia. intros E.
    pose proof (pretty_N_go_length (x `div` 10)
                  (String (pretty_N_char (x `mod` 10)) "")) as Hl.
    rewrite E in Hl. simpl in Hl. lia.
Qed.

(** A printed integer is its digits, with a dash in front when it is
    negative. *)
Lemma pretty_Z_shape (z : Z) :
  exists d, dashfree d /\ d <> ""%string
            /\ (pretty z = d \/ pretty z = ("-" +:+ d)%string).
Proof.
  destruct z as [|p|p].
  - exists "0"%string. repeat split; try done. by left.
  - exists (pretty (Npos p)). destruct (pretty_N_digits (Npos p)). repeat split; try done.
    by left.
  - exists (pretty (Npos p)). destruct (pretty_N_digits (Npos p)). repeat split; try done.
    by right.
Qed.

(** Two strings that have no dash before a separating dash split in one
    way only. *)
Lemma split_at_dash d d' b b' :
  dashfree d -> dashfree d' ->
  (d +:+ "-" +:+ b = d' +:+ "-" +:+ b')%string -> d = d' /\ b = b'.
Proof.
  revert d'. induction d as [|c d IH]; intros [|c' d'] Hd Hd' E; simpl in *.
  - by simplify_eq.
  - destruct Hd' as [Hc _]. by simplify_eq.
  - destruct Hd as [Hc _]. by simplify_eq.
  - destruct Hd as [_ Hd], Hd' as [_ Hd'].
    change (String c (d +:+ "-" +:+ b) = String c' (d' +:+ "-" +:+ b')) in E.
    injection E as -> E. destruct (IH d' Hd Hd' E) as [-> ->]. done.
Qed.

Lemma etag_text_inj (m1 m2 n1 n2 : Z) :
  (pretty m1 +:+ "-" +:+ pretty n1 = pretty m2 +:+ "-" +:+ pretty n2)%string ->
  m1 = m2 /\ n1 = n2.
Proof.
  intros E.
  destruct (pretty_Z_shape m1) as (d1 & Hd1 & Hne1 & Hm1).
  destruct (pretty_Z_shape m2) as (d2 & Hd2 & Hne2 & Hm2).
  assert (pretty m1 = pretty m2 /\ pretty n1 = pretty n2) as [Em En].
  { destruct Hm1 as [Hm1|Hm1], Hm2 as [Hm2|Hm2]; rewrite Hm1, Hm2 in *.
    - by apply split_at_dash.
    - exfalso. destruct d1 as [|c d1]; [done|]. destruct Hd1 as [Hc _].
      change (String c (d1 +:+ "-" +:+ pretty n1)
              = String "-" (d2 +:+ "-" +:+ pretty n2)) in E.
      by injection E as -> _.
    - exfalso. destruct d2 as [|c d2]; [done|]. destruct Hd2 as [Hc _].
      change (String "-" (d1 +:+ "-" +:+ pretty n1)
              = String c (d2 +:+ "-" +:+ pretty n2)) in E.
      by injection E as <- _.
    - change (String "-" (d1 +:+ "-" +:+ pretty n1)
              = String "-" (d2 +:+ "-" +:+ pretty n2)) in E.
      injection E as E. apply split_at_dash in E as [-> ->]; done. }
  split; by apply (inj pretty).
Qed.

(** X5. The ETag determines the pair it is made of: two files
    (or one file at two moments) with the same ETag have the same
    modification time and the same size.  So a change of either shows in
    the ETag. *)
Theorem getETag_determines_date_and_size h1 h2 r1 r2 f1 f2 :
  fileObjs h1 !! r1 = Some f1 ->
  fileObjs h2 !! r2 = Some f2 ->
  obs (getETag r1 h1) = obs (getETag r2 h2) ->
  modifyDate f1 = modifyDate f2 /\ totalSize f1 = totalSize f2.
Proof.
  intros H1 H2. unfold getETag, getSize, bind, ret, load.
  rewrite H1, H2. simpl. rewrite H1, H2. simpl.
  intros [= E]. by apply etag_text_inj.
Qed.

(** *** Folder field and folder listings *)

(** X1. [setFolder] updates the folders' listings only when
    [updateParents] is set and the file has a folder.  Otherwise (the
    default [updateParents = false], or a detached file, as after
    [setNullFolder()]) it returns having written the folder field alone:
    no folder loses or gains the file. *)
Theorem setFolder_without_update_writes_the_field_only h this f newFolder updateParents :
  fileObjs h !! this = Some f ->
  updateParents = false \/ folder f = None ->
  setFolder this newFolder updateParents h
  = Ok tt (mkHeap (<[this := with_folder f (Some newFolder)]> (fileObjs h)) (folderObjs h))
  /\ folderObjs (store_of (setFolder this newFolder updateParents h)) = folderObjs h
  /\ obs (getFolder this (store_of (setFolder this newFolder updateParents h)))
     = inr (Some newFolder)
  /\ (let detached := store_of (setNullFolder this h) in
      folderObjs (store_of (setFolder this newFolder true detached)) = folderObjs h
      /\ obs (getFolder this (store_of (setFolder this newFolder true detached)))
         = inr (Some newFolder)).
Proof.
  intros Hf Hcase.
  assert (setFolder this newFolder updateParents h
          = Ok tt (mkHeap (<[this := with_folder f (Some newFolder)]> (fileObjs h))
                          (folderObjs h))) as E.
  { unfold setFolder, modify, store, bind, load. rewrite Hf.
    destruct Hcase as [-> | ->]; [by rewrite Hf|].
    destruct updateParents; by rewrite Hf. }
  rewrite E. simpl. split; [done|]. split; [done|]. split.
  { unfold getFolder, bind, ret, load. simpl. by rewrite lookup_insert_eq. }
  unfold setNullFolder, setFolder, modify, store, bind, load. rewrite Hf. simpl.
  rewrite lookup_insert_eq. simpl. rewrite lookup_insert_eq. simpl.
  split; [done|]. unfold getFolder, bind, ret, load. simpl.
  by rewrite lookup_insert_eq.
Qed.

(** X2. [rm()] needs a folder: on a file whose folder is null (as
    after [setNullFolder()]) it throws the engine's TypeError for the call
    on [null] (where [getAbsolutePath()] throws [Error("Folder is null")])
    and writes nothing; on a file with a folder it does not throw. *)
Theorem rm_throws_iff_folder_null h this f :
  fileObjs h !! this = Some f ->
  (forall fr, folder f = Some fr -> is_Some (folderObjs h !! fr)) ->
  (folder f = None <-> obs (rm this h) = inl TypeError)
  /\ (folder f = None -> rm this h = Throw TypeError h)
  /\ (forall fr, folder f = Some fr -> obs (rm this h) = inr fr)
  /\ (let detached := store_of (setNullFolder this h) in
      rm this detached = Throw TypeError detached).
Proof.
  intros Hf Hwf.
  assert (folder f = None -> rm this h = Throw TypeError h) as Hnone.
  { intros Hn. unfold rm, bind, throw, load. by rewrite Hf, Hn. }
  assert (forall fr, folder f = Some fr -> obs (rm this h) = inr fr) as Hsome.
  { intros fr Hfr. destruct (Hwf fr Hfr) as [fo Hfo].
    unfold rm, bind, ret, load, Folder_removeFile. by rewrite Hf, Hfr, Hfo. }
  split; [|split; [done|split; [done|]]].
  - split; [intros Hn; by rewrite Hnone|].
    destruct (folder f) as [fr|]; [|done]. by rewrite (Hsome fr eq_refl).
  - simpl. unfold setNullFolder, modify, store, bind, load. rewrite Hf. simpl.
    unfold rm, bind, throw, load. simpl. by rewrite lookup_insert_eq.
Qed.

(** *** The absolute path after a rename or a move *)

(** Two folder stores with the same folders, names and parents. *)
Lemma Folder_path_ext fuel (fs fs' : gmap positive Folder) fr :
  (forall r, (fun fo => (name fo, parent fo)) <$> fs !! r
             = (fun fo => (name fo, parent fo)) <$> fs' !! r) ->
  Folder_path fuel fs fr = Folder_path fuel fs' fr.
Proof.
  intros Hsame. revert fr. induction fuel as [|k IH]; intros fr; simpl; [done|].
  specialize (Hsame fr).
  destruct (fs !! fr) as [fo|], (fs' !! fr) as [fo'|]; simpl in Hsame; try done.
  injection Hsame as Hn Hp. rewrite Hn, Hp.
  destruct (parent fo') as [up|]; [|done]. by rewrite IH.
Qed.

Lemma same_tree_refl h h' : folderObjs h' = folderObjs h -> same_tree h h'.
Proof. intros E. unfold same_tree. by rewrite E. Qed.

Lemma same_tree_trans h1 h2 h3 : same_tree h1 h2 -> same_tree h2 h3 -> same_tree h1 h3.
Proof.
  intros [S1 L1] [S2 L2]. split; [congruence|]. intros r. by rewrite L2, L1.
Qed.

Lemma same_tree_relist h files' fr fo c :
  folderObjs h !! fr = Some fo ->
  same_tree h (mkHeap files' (<[fr := with_children fo c]> (folderObjs h))).
Proof.
  intros Hfo. split; simpl; [by eapply map_size_insert_Some|].
  intros r. destruct (decide (r = fr)) as [->|Hne].
  - by rewrite lookup_insert_eq, Hfo.
  - by rewrite lookup_insert_ne.
Qed.

Lemma removeFile_same_tree fr file h :
  same_tree h (store_of (Folder_removeFile fr file h)).
Proof.
  unfold Folder_removeFile. destruct (folderObjs h !! fr) as [fo|] eqn:Hfo.
  - by apply same_tree_relist.
  - by apply same_tree_refl.
Qed.

Lemma addFile_same_tree fr file h :
  same_tree h (store_of (Folder_addFile fr file h)).
Proof.
  unfold Folder_addFile.
  destruct (folderObjs h !! fr) as [fo|] eqn:Hfo, (fileObjs h !! file) as [f|];
    try by apply same_tree_refl.
  by apply same_tree_relist.
Qed.

Lemma modify_same_tree this g h : same_tree h (store_of (modify this g h)).
Proof. apply same_tree_refl, modify_folders. Qed.

Lemma setFolder_same_tree this fr up h :
  same_tree h (store_of (setFolder this fr up h)).
Proof.
  unfold setFolder. rewrite store_of_bind. unfold load.
  destruct (fileObjs h !! this) as [f|]; [|by apply same_tree_refl].
  destruct up, (folder f) as [old|]; try apply modify_same_tree.
  rewrite store_of_bind.
  pose proof (removeFile_same_tree old this h) as T1.
  destruct (Folder_removeFile old this h) as [[] h1|e h1]; simpl in T1; [|done].
  rewrite store_of_bind.
  pose proof (modify_same_tree this (fun f0 => with_folder f0 (Some fr)) h1) as T2.
  destruct (modify this (fun f0 => with_folder f0 (Some fr)) h1) as [[] h2|e h2];
    simpl in T2.
  - eapply same_tree_trans; [done|]. eapply same_tree_trans; [done|].
    apply addFile_same_tree.
  - by eapply same_tree_trans.
Qed.

Lemma Folder_getAbsolutePath_same_tree h h' target :
  same_tree h h' ->
  obs (Folder_getAbsolutePath target h') = obs (Folder_getAbsolutePath target h).
Proof.
  intros [Hsize Hsame]. unfold Folder_getAbsolutePath. rewrite Hsize.
  rewrite (Folder_path_ext _ _ (folderObjs h) target Hsame).
  by destruct (Folder_path _ _ target).
Qed.

Lemma Folder_getAbsolutePath_files h files' target :
  obs (Folder_getAbsolutePath target (mkHeap files' (folderObjs h)))
  = obs (Folder_getAbsolutePath target h).
Proof.
  unfold Folder_getAbsolutePath. simpl. by destruct (Folder_path _ _ target).
Qed.

Lemma Folder_getAbsolutePath_exists h fr p :
  obs (Folder_getAbsolutePath fr h) = inr p -> is_Some (folderObjs h !! fr).
Proof.
  unfold Folder_getAbsolutePath.
  destruct (size (folderObjs h)) as [|k]; simpl; [done|].
  destruct (folderObjs h !! fr); [eauto|done].
Qed.

Lemma getAbsolutePath_of h this f fr p :
  fileObjs h !! this = Some f -> folder f = Some fr ->
  obs (Folder_getAbsolutePath fr h) = inr p ->
  obs (getAbsolutePath this h) = inr (p +:+ filename f)%string.
Proof.
  intros Hf Hfr Hp. unfold getAbsolutePath, getFileName, bind, ret, load.
  rewrite Hf, Hfr.
  destruct (Folder_getAbsolutePath fr h) as [p0 h0|e h0] eqn:E; simpl in Hp; [|done].
  simplify_eq.
  assert (h0 = h) as ->.
  { unfold Folder_getAbsolutePath in E. destruct (Folder_path _ _ fr); by simplify_eq. }
  by rewrite Hf.
Qed.

(** X3. The absolute path follows the name and the folder field:
    after [setFileName(n)] it is the old folder's path followed by [n];
    after [setFolder(folder, updateParents)], with either value of
    [updateParents], it is the new folder's path followed by the file's
    name. *)
Theorem getAbsolutePath_after_rename_and_move h this f :
  fileObjs h !! this = Some f ->
  (forall old, folder f = Some old -> is_Some (folderObjs h !! old)) ->
  (forall fr p n,
     folder f = Some fr ->
     obs (Folder_getAbsolutePath fr h) = inr p ->
     obs (getAbsolutePath this (store_of (setFileName this n h)))
     = inr (p +:+ n)%string)
  /\ (forall newFolder p updateParents,
        obs (Folder_getAbsolutePath newFolder h) = inr p ->
        obs (getAbsolutePath this (store_of (setFolder this newFolder updateParents h)))
        = inr (p +:+ filename f)%string).
Proof.
  intros Hf Hwf. split.
  - intros fr p n Hfr Hp.
    unfold setFileName, modify, store, bind, load. rewrite Hf. simpl.
    eapply (getAbsolutePath_of _ this (with_filename f n) fr p).
    + simpl. by rewrite lookup_insert_eq.
    + done.
    + by rewrite Folder_getAbsolutePath_files.
  - intros newFolder p up Hp.
    destruct (Folder_getAbsolutePath_exists _ _ _ Hp) as [nf Hnf].
    assert (forall h0,
              fileObjs h0 !! this = Some (with_folder f (Some newFolder)) ->
              obs (Folder_getAbsolutePath newFolder h0) = inr p ->
              obs (getAbsolutePath this h0) = inr (p +:+ filename f)%string) as Hgo.
    { intros h0 H0 Hp0.
      by apply (getAbsolutePath_of h0 this (with_folder f (Some newFolder)) newFolder p). }
    unfold setFolder, bind, load. rewrite Hf.
    assert (forall h0, h0 = h ->
              obs (getAbsolutePath this
                     (store_of (modify this (fun f0 => with_folder f0 (Some newFolder)) h0)))
              = inr (p +:+ filename f)%string) as Hplain.
    { intros h0 ->. unfold modify, store, bind, load. rewrite Hf. simpl.
      apply Hgo; [simpl; by rewrite lookup_insert_eq|].
      by rewrite Folder_getAbsolutePath_files. }
    destruct up; [|by apply Hplain].
    destruct (folder f) as [old|] eqn:Hold; [|by apply Hplain].
    destruct (Hwf old eq_refl) as [fo Hfo].
    pose proof (setFolder_same_tree this newFolder true h) as Htree.
    unfold setFolder, bind, load in Htree. rewrite Hf, Hold in Htree.
    apply Hgo; [|by rewrite (Folder_getAbsolutePath_same_tree h)].
    clear Htree. unfold Folder_removeFile. rewrite Hfo.
    unfold modify, store, bind, load. simpl. rewrite Hf. simpl.
    unfold Folder_addFile. simpl. rewrite lookup_insert_eq.
    destruct (decide (newFolder = old)) as [->|Hne].
    + rewrite lookup_insert_eq. simpl. by rewrite lookup_insert_eq.
    + rewrite lookup_insert_ne, Hnf by done. simpl. by rewrite lookup_insert_eq.
Qed.

(** *** The MIME type *)

(** X7. [getMimeType()] never returns an empty string: it is the
    type the lookup gives for the file's name, and
    "application/octet-stream" when the lookup gives none (or an empty
    one).  It reads the name only, so files of the same name get the same
    type and every step that leaves the name alone leaves the type
    alone. *)
Theorem getMimeType_is_never_empty (mime_lookup : string -> option string) h this f :
  fileObjs h !! this = Some f ->
  exists t, getMimeType mime_lookup this h = Ok t h
            /\ t <> ""%string
            /\ (mime_lookup (filename f) = None -> t = "application/octet-stream"%string)
            /\ (forall t', mime_lookup (filename f) = Some t' -> t' <> ""%string -> t = t')
            /\ (forall h' r' f',
                  fileObjs h' !! r' = Some f' -> filename f' = filename f ->
                  obs (getMimeType mime_lookup r' h') = inr t)
            /\ (forall steps,
                  (forall c, OnFile this c ∈ steps ->
                             match c with SetFileName _ => False | _ => True end) ->
                  obs (getMimeType mime_lookup this (run steps h)) = inr t).
Proof.
  intros Hf. eexists. split.
  { unfold getMimeType, bind, ret, load. by rewrite Hf. }
  split; [|split; [|split; [|split]]].
  - unfold or_else. destruct (mime_lookup (filename f)) as [s|]; [|done].
    by case_decide.
  - by intros ->.
  - intros t' -> Hne. unfold or_else. by rewrite decide_False.
  - intros h' r' f' Hf' Hn. unfold getMimeType, bind, ret, load.
    by rewrite Hf', Hn.
  - intros steps Hsteps.
    destruct (run_keeps filename (fun n => n = filename f) steps h this)
      as (f' & Hf' & Hn).
    + done.
    + intros c Hc. specialize (Hsteps c Hc). by destruct c.
    + eauto.
    + unfold getMimeType, bind, ret, load. by rewrite Hf', Hn.
Qed.

(** *** The sample tree again *)

Lemma markDeleted_is_permanent_witness :
  obs (isMarkedDeleted 1 MoreExamples.tree_deleted) = inr true
  /\ obs (isMarkedDeleted 1 (run MoreExamples.busy MoreExamples.tree_deleted)) = inr true.
Proof.
  split; [reflexivity|].
  refine (proj1 (markDeleted_is_permanent MoreExamples.busy MoreExamples.tree_deleted 1 _)).
  reflexivity.
Defined.

Lemma busy_keeps_etag c :
  OnFile 1 c ∈ MoreExamples.busy -> keeps_etag c = true.
Proof.
  unfold MoreExamples.busy. intros Hc.
  repeat (apply elem_of_cons in Hc as [Hc|Hc]; [by simplify_eq|]).
  by apply elem_of_nil in Hc.
Qed.

Lemma getETag_changes_only_with_date_or_size_witness :
  is_Some (fileObjs Examples.tree !! 1%positive)
  /\ obs (getETag 1 (run MoreExamples.busy Examples.tree)) = inr "2000-11"%string.
Proof.
  split; [by eexists|].
  rewrite (getETag_changes_only_with_date_or_size MoreExamples.busy Examples.tree 1
             (ex_intro _ Examples.file_a eq_refl) busy_keeps_etag).
  reflexivity.
Defined.

Lemma getETag_determines_date_and_size_witness :
  obs (getETag 1 Examples.tree) = obs (getETag 2 Examples.tree)
  /\ modifyDate Examples.file_a = modifyDate Examples.file_b
  /\ totalSize Examples.file_a = totalSize Examples.file_b.
Proof.
  split; [reflexivity|].
  apply (getETag_determines_date_and_size Examples.tree Examples.tree 1 2
           Examples.file_a Examples.file_b); reflexivity.
Defined.

Lemma setFolder_without_update_writes_the_field_only_witness :
  fileObjs Examples.tree !! 2%positive = Some Examples.file_b
  /\ folder Examples.file_b = None
  /\ folderObjs (store_of (setFolder 2 2 true Examples.tree)) = folderObjs Examples.tree
  /\ obs (getFolder 2 (store_of (setFolder 2 2 true Examples.tree))) = inr (Some 2%positive).
Proof.
  split; [reflexivity|]. split; [reflexivity|].
  destruct (setFolder_without_update_writes_the_field_only
              Examples.tree 2 Examples.file_b 2 true eq_refl (or_intror eq_refl))
    as (_ & H1 & H2 & _).
  split; [exact H1|exact H2].
Defined.

Lemma rm_throws_iff_folder_null_witness :
  fileObjs Examples.tree !! 2%positive = Some Examples.file_b
  /\ rm 2 Examples.tree = Throw TypeError Examples.tree.
Proof.
  split; [reflexivity|].
  refine (proj1 (proj2 (rm_throws_iff_folder_null Examples.tree 2 Examples.file_b
                          eq_refl _)) eq_refl).
  intros fr Hfr. discriminate Hfr.
Defined.

Lemma getAbsolutePath_after_rename_and_move_witness :
  fileObjs Examples.tree !! 1%positive = Some Examples.file_a
  /\ obs (getAbsolutePath 1 (store_of (setFileName 1 "z.txt" Examples.tree)))
     = inr "/docs/z.txt"%string
  /\ obs (getAbsolutePath 1 (store_of (setFolder 1 1 true Examples.tree)))
     = inr "/a.txt"%string.
Proof.
  split; [reflexivity|].
  assert (forall old, folder Examples.file_a = Some old ->
                      is_Some (folderObjs Examples.tree !! old)) as Hwf.
  { intros old [= <-]. by eexists. }
  destruct (getAbsolutePath_after_rename_and_move Examples.tree 1 Examples.file_a
              eq_refl Hwf) as [Hrename Hmove].
  split.
  - exact (Hrename 2%positive "/docs/"%string "z.txt"%string eq_refl eq_refl).
  - exact (Hmove 1%positive "/"%string true eq_refl).
Defined.

Lemma getMimeType_is_never_empty_witness :
  fileObjs Examples.tree !! 2%positive = Some Examples.file_b
  /\ getMimeType MoreExamples.mime_table 2 Examples.tree
     = Ok "application/octet-stream"%string Examples.tree.
Proof.
  split; [reflexivity|].
  destruct (getMimeType_is_never_empty MoreExamples.mime_table Examples.tree 2
              Examples.file_b eq_refl) as (t & Ht & _ & Hdefault & _).
  rewrite Ht. by rewrite (Hdefault eq_refl).
Defined.

End FileBaseMore.

(* ===================================================================== *)
(** ** Further properties of DiscordFileStorageApp.ts                      *)
(* ===================================================================== *)

Module AppMore.
Import JS App AppExt AppFacts.
Local Open Scope js_scope.

(** *** The singleton *)

Lemma construct_all_after_first calls existing :
  construct_all calls (Some existing)
  = ((fun _ => inl (Error "DiscordFileStorageApp already exists")) <$> calls,
     Some existing).
Proof.
  induction calls as [|[o g] calls IH]; simpl; [done|]. by rewrite IH.
Qed.

(** X8. In a process that starts without an instance, the first
    constructor call returns the app and registers it, every later call
    throws, and the registered instance, with the encryption settings of
    the first call, is never replaced. *)
Theorem first_construction_wins options gid rest :
  exists this,
    constructor options gid None = Ok this (Some this)
    /\ construct_all ((options, gid) :: rest) None
       = (inr this :: ((fun _ => inl (Error "DiscordFileStorageApp already exists")) <$> rest),
          Some this)
    /\ guildId this = gid
    /\ shouldEncryptFiles this = opt_shouldEncrypt options
    /\ getEncryptPassword this = nullish (opt_encryptPassword options) "".
Proof.
  eexists. split; [reflexivity|]. split; [|done].
  cbn [construct_all]. simpl. by rewrite construct_all_after_first.
Qed.

(** *** The channels [prepare] creates *)

Lemma created_app t1 t2 : created (t1 ++ t2) = created t1 ++ created t2.
Proof. unfold created. by rewrite omap_app. Qed.

(** The loop over [channelsToCreate] creates, in order, the names that no
    channel of [gc] has, up to the first creation that rejects: all of them
    when it returns, and it returns when the creations resolve. *)
Lemma for_each_ensure_channel_created client guild gc l u :
  exists out ev k,
    for_each (ensure_channel client guild gc) l u = (out, u ++ ev)
    /\ created ev
       = (fun c => mkChannel c GuildText)
         <$> take k (List.filter
                       (fun c => negb (existsb (fun ch => bool_decide (channel_name ch = c)) gc))
                       l)
    /\ (out = Returned tt ->
        created ev
        = (fun c => mkChannel c GuildText)
          <$> List.filter
                (fun c => negb (existsb (fun ch => bool_decide (channel_name ch = c)) gc)) l)
    /\ ((forall v c, c ∈ l -> guild_channels_create client guild v c = Resolved tt) ->
        out = Returned tt)
    /\ (forall code, out <> Exited code).
Proof.
  revert u. induction l as [|c l IH]; intros u.
  - exists (Returned tt), [], 0%nat. by rewrite app_nil_r.
  - rewrite for_each_cons, ensure_channel_eq. cbn [List.filter].
    destruct (existsb _ gc); cbn [negb].
    + destruct (IH (u ++ [ConsoleLog (Some green) ("channel already exists: " +:+ c)]))
        as (out & ev & k & -> & Hk & Hret & Hres & Hex).
      exists out, (ConsoleLog (Some green) ("channel already exists: " +:+ c) :: ev), k.
      rewrite <- app_assoc. split; [done|]. split; [done|]. split; [done|].
      split; [|done]. intros Hall. apply Hres. intros v c' Hc'. apply Hall. by right.
    + destruct (guild_channels_create client guild
                  (u ++ [ConsoleLog None ("creating channel: " +:+ c)]) c) as [[]|e] eqn:Hcreate.
      * destruct (IH (u ++ [ConsoleLog None ("creating channel: " +:+ c);
                            ChannelsCreate c GuildText]))
          as (out & ev & k & -> & Hk & Hret & Hres & Hex).
        exists out, (ConsoleLog None ("creating channel: " +:+ c)
                     :: ChannelsCreate c GuildText :: ev), (S k).
        rewrite <- app_assoc. split; [done|].
        change (created (?x :: ?y :: ev)) with (created ([x; y] ++ ev)).
        rewrite created_app.
        split; [by rewrite Hk|]. split; [by intros Ho; rewrite (Hret Ho)|].
        split; [|done]. intros Hall. apply Hres. intros v c' Hc'. apply Hall. by right.
      * exists (Rejected e), [ConsoleLog None ("creating channel: " +:+ c)], 0%nat.
        split; [done|]. split; [done|]. split; [done|]. split; [|done].
        intros Hall. rewrite Hall in Hcreate; [done|by left].
Qed.

(** [prepare()] with the guild fetched: the channels it has created when
    it ends are the first [k] missing names, all of them when it returns;
    it returns when the two channel calls resolve, and never exits. *)
Lemma prepare_created this client cached guild t :
  guilds_cache client !! guildId this = Some cached ->
  guild_fetch client cached = Resolved (Some guild) ->
  exists out t' k,
    prepare this client t = (out, t')
    /\ created t'
       = created t ++ ((fun c => mkChannel c GuildText)
                       <$> take k (List.filter (fun c => negb (has_text_channel guild c))
                                               (channelsToCreate this)))
    /\ (out = Returned tt ->
        created t'
        = created t ++ ((fun c => mkChannel c GuildText)
                        <$> List.filter (fun c => negb (has_text_channel guild c))
                                        (channelsToCreate this)))
    /\ (guild_channels_fetch client guild = Resolved tt ->
        (forall v c, c ∈ channelsToCreate this ->
                     guild_channels_create client guild v c = Resolved tt) ->
        out = Returned tt)
    /\ (forall e, guild_channels_fetch client guild = RejectedWith e ->
                  out = Rejected e /\ created t' = created t)
    /\ (forall code, out <> Exited code).
Proof.
  intros Hc Hf. rewrite (prepare_with_guild _ _ _ _ t Hc Hf).
  destruct (guild_channels_fetch client guild) as [[]|e].
  - destruct (for_each_ensure_channel_created client guild
                (List.filter (fun channel => bool_decide (channel_type channel = GuildText))
                             (guild_channels guild))
                (channelsToCreate this)
                (t ++ [LoggerInfo ("Guild found: " +:+ guild_name guild);
                       ConsoleLog (Some yellow) "Fetching channels...";
                       ChannelsFetch]))
      as (out & ev & k & -> & Hk & Hret & Hres & Hex).
    exists out, ((t ++ [LoggerInfo ("Guild found: " +:+ guild_name guild);
                        ConsoleLog (Some yellow) "Fetching channels...";
                        ChannelsFetch]) ++ ev), k.
    split; [done|]. rewrite !created_app. cbn [created omap]. rewrite app_nil_r.
    split; [by rewrite Hk|]. split; [by intros Ho; rewrite (Hret Ho)|].
    split; [by intros _; apply Hres|]. split; [done|done].
  - exists (Rejected e), (t ++ [LoggerInfo ("Guild found: " +:+ guild_name guild);
                                ConsoleLog (Some yellow) "Fetching channels..."]), 0%nat.
    split; [done|]. rewrite created_app. cbn [created omap take fmap list_fmap].
    split; [done|]. split; [done|]. split; [done|]. split; [|done].
    intros e' [= <-]. by rewrite app_nil_r.
Qed.

(** X9. With the guild fetched, [prepare()] creates text channels for
    configured names that no text channel of the guild has, in the order
    of the configuration, and nothing else: a name that a text channel has
    is never created, and a channel of another type with that name does
    not count.  It stops at the first channel call that rejects (nothing
    catches it), having created the missing names before it; when it
    returns it has created every missing name, and it returns when the
    fetch of the channels and the creations resolve.  It never exits
    here. *)
Theorem prepare_creates_the_missing_text_channels this client cached guild t :
  guilds_cache client !! guildId this = Some cached ->
  guild_fetch client cached = Resolved (Some guild) ->
  exists out t' k,
    prepare this client t = (out, t')
    /\ created t'
       = created t ++ ((fun c => mkChannel c GuildText)
                       <$> take k (List.filter (fun c => negb (has_text_channel guild c))
                                               (channelsToCreate this)))
    /\ (forall code, out <> Exited code)
    /\ (guild_channels_fetch client guild = Resolved tt ->
        (forall v c, c ∈ channelsToCreate this ->
                     guild_channels_create client guild v c = Resolved tt) ->
        out = Returned tt)
    /\ (forall e, guild_channels_fetch client guild = RejectedWith e ->
                  out = Rejected e /\ created t' = created t)
    /\ (out = Returned tt ->
        created t'
        = created t ++ ((fun c => mkChannel c GuildText)
                        <$> List.filter (fun c => negb (has_text_channel guild c))
                                        (channelsToCreate this))
        /\ (forall c, c ∈ channelsToCreate this -> has_text_channel guild c = false ->
                      mkChannel c GuildText ∈ created t'))
    /\ (forall ch, ch ∈ created t' -> ch ∈ created t \/
                   (channel_type ch = GuildText
                    /\ channel_name ch ∈ channelsToCreate this
                    /\ has_text_channel guild (channel_name ch) = false))
    /\ ((forall c, c ∈ channelsToCreate this -> has_text_channel guild c = true) ->
        created t' = created t).
Proof.
  intros Hc Hf.
  destruct (prepare_created this client cached guild t Hc Hf)
    as (out & t' & k & E & Hk & Hret & Hres & Hrej & Hex).
  exists out, t', k. split; [done|]. split; [done|]. split; [done|]. split; [done|].
  split; [done|]. split; [|split].
  - intros Ho. split; [by apply Hret|]. rewrite (Hret Ho).
    intros c Hin Hmiss. apply elem_of_app. right.
    apply (list_elem_of_fmap_2 (fun c => mkChannel c GuildText)).
    apply list_elem_of_In, filter_In. split; [by apply list_elem_of_In|by rewrite Hmiss].
  - rewrite Hk. intros ch Hin. apply elem_of_app in Hin as [Hin|Hin]; [by left|right].
    apply list_elem_of_fmap_1 in Hin as (c & -> & Hin).
    apply (subseteq_take k) in Hin.
    apply list_elem_of_In, filter_In in Hin as [Hin Hmiss]. simpl.
    split; [done|]. split; [by apply list_elem_of_In|]. by destruct (has_text_channel guild c).
  - intros Hall. rewrite Hk.
    replace (List.filter (fun c => negb (has_text_channel guild c)) (channelsToCreate this))
      with (@nil string); [by rewrite take_nil, app_nil_r|].
    symmetry. apply filter_none. apply Forall_forall. intros c Hin. by rewrite Hall.
Qed.

(** X10. The channels present are read once, before the loop: when
    the options give the two channels the same name and no text channel
    has it, [prepare()] announces and creates that channel twice.  This is
    what it has done whenever it returns, and it returns when the fetch of
    the channels and the creations of that name resolve; a creation that
    rejects ends it by rejection. *)
Theorem prepare_creates_a_shared_name_twice options gid this st client cached guild c t :
  constructor options gid None = Ok this st ->
  opt_metaChannelName options = c ->
  opt_filesChannelName options = c ->
  guilds_cache client !! guildId this = Some cached ->
  guild_fetch client cached = Resolved (Some guild) ->
  has_text_channel guild c = false ->
  (forall t', prepare this client t = (Returned tt, t') ->
              created t' = created t ++ [mkChannel c GuildText; mkChannel c GuildText])
  /\ (guild_channels_fetch client guild = Resolved tt ->
      (forall v, guild_channels_create client guild v c = Resolved tt) ->
      prepare this client t
      = (Returned tt,
         t ++ [LoggerInfo ("Guild found: " +:+ guild_name guild);
               ConsoleLog (Some yellow) "Fetching channels...";
               ChannelsFetch;
               ConsoleLog None ("creating channel: " +:+ c);
               ChannelsCreate c GuildText;
               ConsoleLog None ("creating channel: " +:+ c);
               ChannelsCreate c GuildText]))
  /\ (forall e,
        guild_channels_fetch client guild = Resolved tt ->
        guild_channels_create client guild
          (t ++ [LoggerInfo ("Guild found: " +:+ guild_name guild);
                 ConsoleLog (Some yellow) "Fetching channels...";
                 ChannelsFetch;
                 ConsoleLog None ("creating channel: " +:+ c)]) c = RejectedWith e ->
        exists t', prepare this client t = (Rejected e, t') /\ created t' = created t).
Proof.
  intros [= <- _] Hm Hfn Hc Hf Hmiss. split; [|split].
  - intros t' Hprep.
    destruct (prepare_created _ client cached guild t Hc Hf)
      as (out & t'' & k & E & _ & Hret & _).
    rewrite Hprep in E. injection E as <- <-.
    rewrite (Hret eq_refl). simpl. by rewrite Hm, Hfn, Hmiss.
  - intros Hfetch Hcreate. rewrite (prepare_with_guild _ _ _ _ t Hc Hf), Hfetch.
    cbn [channelsToCreate]. rewrite Hm, Hfn.
    unfold has_text_channel, text_channels in Hmiss.
    rewrite for_each_cons, ensure_channel_eq, Hmiss, Hcreate. cbv beta iota.
    rewrite for_each_cons, ensure_channel_eq, Hmiss, Hcreate. cbv beta iota.
    cbn [for_each]. unfold pret. by rewrite <- !app_assoc.
  - intros e Hfetch Hcreate. rewrite (prepare_with_guild _ _ _ _ t Hc Hf), Hfetch.
    cbn [channelsToCreate]. rewrite Hm, Hfn.
    unfold has_text_channel, text_channels in Hmiss.
    rewrite for_each_cons, ensure_channel_eq, Hmiss.
    rewrite <- app_assoc. cbn [app]. rewrite Hcreate.
    eexists. split; [done|]. rewrite created_app. cbn [created omap]. by rewrite app_nil_r.
Qed.

(** *** Finding the channels afterwards *)

Lemma find_channel_named name guild ch :
  ch ∈ guild_channels guild -> channel_name ch = name ->
  exists found, find_channel name guild = Some found /\ channel_name found = name.
Proof.
  intros Hin Hn. unfold find_channel.
  destruct (List.find _ (guild_channels guild)) as [found|] eqn:E.
  - exists found. split; [done|]. apply find_some in E as [_ E].
    by apply bool_decide_eq_true in E.
  - apply list_elem_of_In in Hin. apply (find_none _ _ E ch) in Hin.
    by apply bool_decide_eq_false in Hin.
Qed.

Lemma has_text_channel_true guild c :
  has_text_channel guild c = true <->
  exists ch, ch ∈ guild_channels guild /\ channel_type ch = GuildText /\ channel_name ch = c.
Proof.
  unfold has_text_channel, text_channels. rewrite existsb_exists. split.
  - intros (ch & Hin & Hn). apply filter_In in Hin as [Hin Ht].
    exists ch. split; [by apply list_elem_of_In|].
    split; [by apply bool_decide_eq_true in Ht|by apply bool_decide_eq_true in Hn].
  - intros (ch & Hin & Ht & Hn). exists ch. split; [|by apply bool_decide_eq_true].
    apply filter_In. split; [by apply list_elem_of_In|by apply bool_decide_eq_true].
Qed.

(** X11. After [prepare()] has returned, the guild (its cache holding
    the channels it had and the ones created) has a text channel for each
    of the two configured names, and [getMetadataChannel()] and
    [getFileChannel()] resolve to a channel of the configured name, not
    to [undefined]. *)
Theorem channels_resolve_after_prepare options gid this st client cached guild t t' client' :
  constructor options gid None = Ok this st ->
  guilds_cache client !! guildId this = Some cached ->
  guild_fetch client cached = Resolved (Some guild) ->
  prepare this client t = (Returned tt, t') ->
  getGuild this client' = Resolved (Some (guild_after guild t')) ->
  has_text_channel (guild_after guild t') (opt_metaChannelName options) = true
  /\ has_text_channel (guild_after guild t') (opt_filesChannelName options) = true
  /\ (exists ch, getMetadataChannel this client' = Resolved (Some ch)
                 /\ channel_name ch = opt_metaChannelName options)
  /\ (exists ch, getFileChannel this client' = Resolved (Some ch)
                 /\ channel_name ch = opt_filesChannelName options).
Proof.
  intros [= <- _] Hc Hf Hprep Hg.
  destruct (prepare_created _ client cached guild t Hc Hf)
    as (out & t'' & k & E & _ & Hret & _).
  rewrite Hprep in E. injection E as <- <-. pose proof (Hret eq_refl) as Hcr.
  assert (forall c, c ∈ [opt_metaChannelName options; opt_filesChannelName options] ->
            exists ch, ch ∈ guild_channels (guild_after guild t')
                       /\ channel_type ch = GuildText /\ channel_name ch = c) as Hall.
  { intros c Hin. destruct (has_text_channel guild c) eqn:Hh.
    - apply has_text_channel_true in Hh as (ch & Hch & Ht & Hn).
      exists ch. split; [|done]. simpl. apply elem_of_app. by left.
    - exists (mkChannel c GuildText). split; [|done]. simpl.
      apply elem_of_app. right. rewrite Hcr. apply elem_of_app. right.
      apply (list_elem_of_fmap_2 (fun c => mkChannel c GuildText)).
      apply list_elem_of_In, filter_In. split; [by apply list_elem_of_In|].
      by rewrite Hh. }
  destruct (Hall (opt_metaChannelName options)) as (m & Hm & Hmt & Hmn);
    [by constructor|].
  destruct (Hall (opt_filesChannelName options)) as (f & Hfi & Hft & Hfn);
    [by do 2 constructor|].
  split; [apply has_text_channel_true; eauto|].
  split; [apply has_text_channel_true; eauto|].
  unfold getMetadataChannel, getFileChannel, channel_of. rewrite Hg. simpl.
  destruct (find_channel_named _ _ m Hm Hmn) as (x & -> & Hx).
  destruct (find_channel_named _ _ f Hfi Hfn) as (y & -> & Hy).
  split; eauto.
Qed.

(** *** What [getAllMessages] returns, whatever the ids *)

Lemma older_than_subset b hist m : m ∈ older_than b hist -> m ∈ hist.
Proof.
  induction hist as [|x hist IH]; simpl; [done|].
  case_decide; intros Hm; right; [done|by apply IH].
Qed.

Lemma messages_fetch_subset hist limit before m :
  m ∈ messages_fetch hist limit before -> m ∈ hist.
Proof.
  unfold messages_fetch. intros Hm. apply elem_of_take in Hm as (i & Hm & _).
  apply list_elem_of_lookup_2 in Hm.
  destruct before as [b|]; [by eapply older_than_subset|done].
Qed.

Lemma getAllMessages_loop_extends fuel hist acc lastId out l out' :
  getAllMessages_loop fuel (serving hist) acc lastId out = Some (Resolved l, out') ->
  exists rest,
    l = acc ++ messages_fetch hist 100 (fetch_options_before lastId) ++ rest
    /\ forall m, m ∈ rest -> m ∈ hist.
Proof.
  revert acc lastId out. induction fuel as [|fuel IH]; intros acc lastId out; [done|].
  rewrite getAllMessages_loop_S. unfold serving at 1.
  destruct (length (messages_fetch hist 100 (fetch_options_before lastId)) <? 100)%nat.
  - intros [= <- _]. exists []. split; [by rewrite app_nil_r|].
    intros m Hm. by apply elem_of_nil in Hm.
  - intros E. apply IH in E as (rest & -> & Hrest).
    rewrite <- app_assoc. eexists. split; [reflexivity|].
    intros m Hm. apply elem_of_app in Hm as [Hm|Hm]; [|by apply Hrest].
    by eapply messages_fetch_subset.
Qed.

(** X12. Without any assumption on the ids, on a channel whose fetches
    resolve: when [getAllMessages] returns, the list starts with the
    newest page (the newest 100 messages, or all of them), holds only
    messages of the channel, and is the whole channel, read in one fetch
    that prints one line, when the channel has fewer than 100 messages. *)
Theorem getAllMessages_returns_channel_messages fuel hist out l out' :
  getAllMessages fuel (Resolved (Some (serving hist))) out = Some (Resolved l, out') ->
  take 100 hist `prefix_of` l
  /\ (forall m, m ∈ l -> m ∈ hist)
  /\ ((length hist < 100)%nat ->
      l = hist
      /\ getAllMessages 1 (Resolved (Some (serving hist))) out
         = Some (Resolved hist, out ++ [block_line (length hist)])).
Proof.
  unfold getAllMessages. intros E.
  assert (messages_fetch hist 100 (fetch_options_before None) = take 100 hist) as Hfirst
    by done.
  pose proof (getAllMessages_loop_extends _ _ _ _ _ _ _ E) as (rest & -> & Hrest).
  rewrite Hfirst in *. rewrite app_nil_l. split; [by eexists|]. split.
  - intros m Hm. apply elem_of_app in Hm as [Hm|Hm]; [|by apply Hrest].
    by apply (subseteq_take 100 hist).
  - intros Hlen. assert (take 100 hist = hist) as Ht by (apply take_ge; lia).
    assert (forall k, getAllMessages_loop (S k) (serving hist) [] None out
                      = Some (Resolved hist, out ++ [block_line (length hist)])) as E1.
    { intros k. rewrite getAllMessages_loop_S. unfold serving at 1.
      rewrite Hfirst, Ht, app_nil_l.
      by destruct (Nat.ltb_spec (length hist) 100); [|lia]. }
    split; [|apply E1].
    destruct fuel as [|fuel]; [done|]. rewrite E1 in E. injection E as E _.
    simpl in E. congruence.
Qed.

(** *** The counters and the report of [loadFiles] *)

Section LoadMore.
Context {object : Type}.
Variable axios_get : string -> exn + object.
Variable isValidRemoteFile : object -> bool.
Variable fromObject : object -> M VFS.Heap positive.
Variable setMessageMetaIdInMetaChannel : positive -> string -> M VFS.Heap unit.

Local Abbreviation body :=
  (load_message axios_get isValidRemoteFile fromObject setMessageMetaIdInMetaChannel).
Local Abbreviation loop :=
  (loadFiles_loop axios_get isValidRemoteFile fromObject setMessageMetaIdInMetaChannel).
Local Abbreviation bad := (malformed axios_get isValidRemoteFile).

Ltac run_body :=
  unfold load_message, await_axios, on_filesystem, console_log, incr_failedFiles,
    incr_totalLoadedFiles, bind, ret, throw in *; simpl in *.

Ltac cases_of_body :=
  repeat (simpl;
          match goal with
          | |- context [fromObject ?o ?h] => destruct (fromObject o h) as [? ?|? ?]
          | |- context [setMessageMetaIdInMetaChannel ?r ?x ?h] =>
              destruct (setMessageMetaIdInMetaChannel r x h) as [[] ?|? ?]
          | |- context [VFS.getFileName ?r ?h] => destruct (VFS.getFileName r h) as [? ?|? ?]
          | |- context [VFS.getAbsolutePath ?r ?h] =>
              destruct (VFS.getAbsolutePath r h) as [? ?|? ?]
          end); simpl.

Lemma malformed_has_attachment m : bad m = true -> has_attachment m = true.
Proof. unfold malformed, has_attachment. by destruct (attachments m). Qed.

(** One run of the body: a return counts the message if it has an
    attachment, and counts it as failed if it is malformed; an exception
    leaves both counters as they were. *)
Lemma body_counts i n m st :
  match body i n m st with
  | Ok _ st' =>
      totalLoadedFiles st' = (totalLoadedFiles st + if has_attachment m then 1 else 0)%nat
      /\ failedFiles st' = (failedFiles st + if bad m then 1 else 0)%nat
  | Throw _ st' =>
      totalLoadedFiles st' = totalLoadedFiles st /\ failedFiles st' = failedFiles st
  end.
Proof.
  unfold malformed, has_attachment. destruct st as [fs t f c]. run_body.
  destruct (attachments m) as [|first ?]; [simpl; lia|].
  destruct (axios_get (url first)) as [e|file]; [done|].
  destruct (isValidRemoteFile file); cases_of_body; lia.
Qed.

Lemma loop_counts msgs : forall i n st,
  match loop i n msgs st with
  | Ok _ st' =>
      totalLoadedFiles st'
      = (totalLoadedFiles st + length (List.filter has_attachment msgs))%nat
      /\ failedFiles st' = (failedFiles st + length (List.filter bad msgs))%nat
  | Throw _ st' =>
      exists a b, (b <= a <= length (List.filter has_attachment msgs))%nat
                  /\ totalLoadedFiles st' = (totalLoadedFiles st + a)%nat
                  /\ failedFiles st' = (failedFiles st + b)%nat
  end.
Proof.
  induction msgs as [|m msgs IH]; intros i n st.
  { simpl. unfold ret. lia. }
  rewrite loop_cons. pose proof (body_counts i n m st) as Hb.
  pose proof (malformed_has_attachment m) as Hbm.
  destruct (body i n m st) as [[] st1|e st1].
  - destruct Hb as [Ht Hf]. specialize (IH (S i) n st1).
    cbn [List.filter].
    destruct (loop (S i) n msgs st1) as [[] st2|e st2].
    + destruct IH as [Ht2 Hf2]. rewrite Ht2, Hf2, Ht, Hf.
      destruct (has_attachment m), (bad m); simpl; lia.
    + destruct IH as (a & b & Hab & Ht2 & Hf2).
      exists ((if has_attachment m then 1 else 0) + a)%nat,
             ((if bad m then 1 else 0) + b)%nat.
      rewrite Ht2, Hf2, Ht, Hf.
      destruct (has_attachment m), (bad m); simpl; try lia;
        by specialize (Hbm eq_refl).
  - exists 0%nat, 0%nat. destruct Hb as [-> ->]. lia.
Qed.

Lemma filter_length_le {A} (P Q : A -> bool) l :
  (forall x, P x = true -> Q x = true) ->
  (length (List.filter P l) <= length (List.filter Q l))%nat.
Proof.
  intros HPQ. induction l as [|x l IH]; simpl; [done|].
  specialize (HPQ x). destruct (P x), (Q x); simpl; try lia;
    by specialize (HPQ eq_refl).
Qed.

(** X13. The loop keeps [failedFiles <= totalLoadedFiles] and
    never lowers a counter, also when it is left by an exception.  When
    it returns, [totalLoadedFiles] has grown by the number of messages
    with an attachment (messages without one are not counted) and
    [failedFiles] by the number of malformed records. *)
Theorem loadFiles_loop_counters i n msgs st :
  (failedFiles st <= totalLoadedFiles st)%nat ->
  let r := loop i n msgs st in
  (failedFiles (store_of r) <= totalLoadedFiles (store_of r))%nat
  /\ (totalLoadedFiles st <= totalLoadedFiles (store_of r))%nat
  /\ (failedFiles st <= failedFiles (store_of r))%nat
  /\ (obs r = inr tt ->
      totalLoadedFiles (store_of r)
      = (totalLoadedFiles st + length (List.filter has_attachment msgs))%nat
      /\ failedFiles (store_of r)
         = (failedFiles st + length (List.filter bad msgs))%nat).
Proof.
  intros Hinv r. subst r. pose proof (loop_counts msgs i n st) as H.
  pose proof (filter_length_le bad has_attachment msgs malformed_has_attachment) as Hle.
  destruct (loop i n msgs st) as [[] st'|e st']; simpl.
  - destruct H as [Ht Hf]. split; [lia|]. split; [lia|]. split; [lia|]. done.
  - destruct H as (a & b & Hab & Ht & Hf). split; [lia|]. split; [lia|]. split; [lia|].
    done.
Qed.

(** X14. When [loadFiles()] returns, the metadata channel has been
    found and read, and its last lines on the console are the blank line,
    "Readen t files", the success line for [t - f] of [t] and a blank
    line, where [t] is the number of fetched messages with an attachment
    and [f] the number of malformed records among them. *)
Theorem loadFiles_report fuel metaChannel channel_by_id tree out st :
  loadFiles axios_get isValidRemoteFile fromObject setMessageMetaIdInMetaChannel
            fuel metaChannel channel_by_id tree out = Some (Ok tt st) ->
  exists metaDataChannelId messages lines earlier,
    metaChannel = Resolved (Some metaDataChannelId)
    /\ getAllMessages fuel (channel_by_id metaDataChannelId) []
       = Some (Resolved messages, lines)
    /\ totalLoadedFiles st = length (List.filter has_attachment messages)
    /\ failedFiles st = length (List.filter bad messages)
    /\ console st
       = earlier ++ [Blank;
                     Text None ("Readen " +:+ pretty (totalLoadedFiles st) +:+ " files");
                     Success (totalLoadedFiles st - failedFiles st) (totalLoadedFiles st);
                     Blank].
Proof.
  unfold loadFiles. destruct metaChannel as [[cid|]|e0]; [|done|done].
  destruct (getAllMessages fuel (channel_by_id cid) []) as [[[messages|e0] lines]|] eqn:Hg;
    [|done|done].
  intros [= E]. exists cid, messages, lines.
  unfold loadFiles_parse in E. unfold bind at 1 2 in E. unfold console_log at 1 2 in E.
  unfold bind at 1 in E.
  match type of E with context [loop 0 _ messages ?s0] =>
    pose proof (loop_counts messages 0%nat (length messages) s0) as Hc;
    destruct (loop 0 (length messages) messages s0) as [[] st1|e st1]; [|done] end.
  simpl in Hc. destruct Hc as [Ht Hf].
  unfold bind, console_log in E. simpl in E. injection E as <-. simpl.
  exists (console st1). rewrite Ht, Hf. split; [done|]. split; [done|]. repeat split.
  by rewrite <- !app_assoc.
Qed.

(** *** Which attachment is read, and where the loop stops *)

(** X15. Only the first attachment of a message is ever
    downloaded and checked: a run on the messages cut down to their first
    attachment ends with the same result, tree, counters and console. *)
Theorem loadFiles_reads_the_first_attachment_only i n msgs st :
  loop i n (first_only <$> msgs) st = loop i n msgs st
  /\ (forall m, bad (first_only m) = bad m)
  /\ (forall m j st0, body j n (first_only m) st0 = body j n m st0).
Proof.
  assert (forall m j st0, body j n (first_only m) st0 = body j n m st0) as Hbody.
  { intros m j st0. unfold load_message, first_only. simpl.
    by destruct (attachments m). }
  split; [|split; [|done]].
  - revert i st. induction msgs as [|m msgs IH]; intros i st; [done|].
    rewrite fmap_cons, !loop_cons, Hbody.
    destruct (body i n m st); [apply IH|done].
  - intros m. unfold malformed, first_only. simpl. by destruct (attachments m).
Qed.

(** X16. A download that rejects ends the rebuild there: the
    exception leaves [loadFiles], the tree and the counters are those
    reached before that message, and no later message is processed,
    whatever it holds. *)
Theorem loadFiles_loop_stops_at_rejected_download i n before msg first others e after st st' :
  loadFiles_loop axios_get isValidRemoteFile fromObject setMessageMetaIdInMetaChannel
                 i n before st = Ok tt st' ->
  attachments msg = first :: others ->
  axios_get (url first) = inl e ->
  load_message axios_get isValidRemoteFile fromObject setMessageMetaIdInMetaChannel
               (i + length before) n msg st' = Throw e st'
  /\ loadFiles_loop axios_get isValidRemoteFile fromObject setMessageMetaIdInMetaChannel
                    i n (before ++ msg :: after) st = Throw e st'
  /\ malformed axios_get isValidRemoteFile msg = false.
Proof.
  intros Hb Ha Hd.
  assert (body (i + length before) n msg st' = Throw e st') as Hm.
  { unfold load_message, await_axios, bind, throw. by rewrite Ha, Hd. }
  split; [done|]. split.
  - rewrite loadFiles_loop_at. unfold bind at 1. rewrite Hb.
    unfold bind. by rewrite Hm.
  - unfold malformed. by rewrite Ha, Hd.
Qed.

End LoadMore.

(** *** Sample runs again *)

Lemma prepare_creates_the_missing_text_channels_witness :
  guilds_cache Examples.client_online !! guildId Examples.app_plain = Some Examples.home
  /\ guild_fetch Examples.client_online Examples.home = Resolved (Some Examples.home)
  /\ (prepare Examples.app_plain Examples.client_online []).1 = Returned tt
  /\ created (prepare Examples.app_plain Examples.client_online []).2
     = [mkChannel "files" GuildText].
Proof.
  split; [reflexivity|]. split; [reflexivity|].
  destruct (prepare_creates_the_missing_text_channels
              Examples.app_plain Examples.client_online Examples.home Examples.home []
              eq_refl eq_refl) as (out & t' & k & -> & _ & _ & Hres & _ & Hret & _).
  cbn [fst snd]. pose proof (Hres eq_refl (fun _ _ _ => eq_refl)) as Ho.
  split; [exact Ho|]. destruct (Hret Ho) as [-> _]. reflexivity.
Defined.

(** On a client that rejects the second creation, [prepare()] rejects
    after the first. *)
Example prepare_second_creation_rejected :
  prepare MoreExamples.app_shared MoreExamples.client_one_creation []
  = (Rejected (Error "Maximum number of channels"),
     [LoggerInfo "Guild found: home";
      ConsoleLog (Some yellow) "Fetching channels...";
      ChannelsFetch;
      ConsoleLog None "creating channel: store";
      ChannelsCreate "store" GuildText;
      ConsoleLog None "creating channel: store"]).
Proof. vm_compute. reflexivity. Qed.

Lemma prepare_creates_a_shared_name_twice_witness :
  constructor MoreExamples.options_shared "42" None
  = Ok MoreExamples.app_shared (Some MoreExamples.app_shared)
  /\ has_text_channel Examples.home "store" = false
  /\ prepare MoreExamples.app_shared Examples.client_online []
     = (Returned tt,
        [LoggerInfo "Guild found: home";
         ConsoleLog (Some yellow) "Fetching channels...";
         ChannelsFetch;
         ConsoleLog None "creating channel: store";
         ChannelsCreate "store" GuildText;
         ConsoleLog None "creating channel: store";
         ChannelsCreate "store" GuildText]).
Proof.
  split; [reflexivity|]. split; [reflexivity|].
  destruct (prepare_creates_a_shared_name_twice
              MoreExamples.options_shared "42"%string MoreExamples.app_shared
              (Some MoreExamples.app_shared) Examples.client_online Examples.home
              Examples.home "store"%string []
              eq_refl eq_refl eq_refl eq_refl eq_refl eq_refl) as (_ & H & _).
  exact (H eq_refl (fun _ => eq_refl)).
Defined.

Lemma channels_resolve_after_prepare_witness :
  created (prepare Examples.app_plain Examples.client_online []).2
  = [mkChannel "files" GuildText]
  /\ getMetadataChannel Examples.app_plain MoreExamples.client_prepared
     = Resolved (Some (mkChannel "meta" GuildText))
  /\ getFileChannel Examples.app_plain MoreExamples.client_prepared
     = Resolved (Some (mkChannel "files" GuildText)).
Proof.
  split; [by vm_compute|].
  destruct (channels_resolve_after_prepare
              Examples.options_plain "42"%string Examples.app_plain
              (Some Examples.app_plain) Examples.client_online Examples.home Examples.home
              [] (prepare Examples.app_plain Examples.client_online []).2
              MoreExamples.client_prepared
              eq_refl eq_refl eq_refl eq_refl eq_refl)
    as (_ & _ & (m & Hm & _) & (f & Hf & _)).
  split.
  - rewrite Hm. vm_compute in Hm. by injection Hm as <-.
  - rewrite Hf. vm_compute in Hf. by injection Hf as <-.
Defined.

Lemma getAllMessages_returns_channel_messages_witness :
  getAllMessages 3 (Resolved (Some (serving (Examples.numbered 250)))) []
  = Some (Resolved (Examples.numbered 250),
          [block_line 100; block_line 100; block_line 50])
  /\ take 100 (Examples.numbered 250) `prefix_of` Examples.numbered 250.
Proof.
  assert (getAllMessages 3 (Resolved (Some (serving (Examples.numbered 250)))) []
          = Some (Resolved (Examples.numbered 250),
                  [block_line 100; block_line 100; block_line 50])) as E
    by (vm_compute; reflexivity).
  split; [exact E|].
  exact (proj1 (getAllMessages_returns_channel_messages 3 _ _ _ _ E)).
Defined.

Lemma loadFiles_loop_counters_witness :
  (failedFiles Examples.start <= totalLoadedFiles Examples.start)%nat
  /\ totalLoadedFiles
       (store_of (loadFiles_loop Examples.download Examples.complete Examples.build
                                 Examples.set_meta_id 0 4 Examples.history Examples.start))
     = 3%nat.
Proof.
  split; [reflexivity|].
  destruct (loadFiles_loop_counters
              Examples.download Examples.complete Examples.build Examples.set_meta_id
              0 4 Examples.history Examples.start (le_n 0)) as (_ & _ & _ & H).
  destruct (H ltac:(vm_compute; reflexivity)) as [-> _]. reflexivity.
Defined.

Lemma loadFiles_report_witness :
  exists st,
    loadFiles Examples.download Examples.complete Examples.build Examples.set_meta_id
              1 (Resolved (Some "7"%string)) (MoreExamples.channels_with Examples.history)
              Examples.tree [] = Some (Ok tt st)
    /\ totalLoadedFiles st = 3%nat
    /\ failedFiles st = 1%nat.
Proof.
  destruct (loadFiles Examples.download Examples.complete Examples.build
                      Examples.set_meta_id 1 (Resolved (Some "7"%string))
                      (MoreExamples.channels_with Examples.history) Examples.tree [])
    as [[[] st|e st]|] eqn:E.
  - exists st. split; [reflexivity|].
    destruct (loadFiles_report _ _ _ _ _ _ _ _ _ _ E)
      as (cid & msgs & lines & earlier & Hid & Hg & -> & -> & _).
    injection Hid as <-. vm_compute in Hg. injection Hg as <- _. split; reflexivity.
  - vm_compute in E. discriminate E.
  - vm_compute in E. discriminate E.
Defined.

Lemma loadFiles_loop_stops_at_rejected_download_witness :
  exists st',
    loadFiles_loop Examples.download Examples.complete Examples.build Examples.set_meta_id
                   0 6 [Examples.broken] Examples.start = Ok tt st'
    /\ loadFiles_loop Examples.download Examples.complete Examples.build
                      Examples.set_meta_id 0 6
                      ([Examples.broken] ++ MoreExamples.gone :: Examples.history)
                      Examples.start
       = Throw (Error "ECONNRESET") st'.
Proof.
  destruct (loadFiles_loop Examples.download Examples.complete Examples.build
                           Examples.set_meta_id 0 6 [Examples.broken] Examples.start)
    as [[] st'|e st'] eqn:E.
  - exists st'. split; [reflexivity|].
    exact (proj1 (proj2 (loadFiles_loop_stops_at_rejected_download
                           Examples.download Examples.complete Examples.build
                           Examples.set_meta_id 0 6 [Examples.broken] MoreExamples.gone
                           (mkAttachment "cdn/gone.json" "gone.json") []
                           (Error "ECONNRESET") Examples.history Examples.start st'
                           E eq_refl eq_refl))).
  - vm_compute in E. discriminate E.
Defined.

End AppMore.
